(** * Report verifier: a shallow embedding of [backend/app/report_verifier.py]

    The Python module extracts text from an accident report, detects the
    issuing authority, extracts a date, a time and a location with ordered
    regular expressions, compares them with what the user declared and
    aggregates a confidence score.

    Conventions of the embedding:
    - a Python [str] is a list of Unicode code points ([code := N]);
      literals are written as UTF-8 Rocq strings and decoded by [u];
    - a Python [int] is a [Z];
    - [re] patterns are terms of [regex], run by a backtracking matcher with
      the priorities of the [re] module (leftmost start, first alternative,
      greedy before lazy);
    - a function that can raise returns a [res] ([Ok] or [Raise]); [int] and
      the float functions, which raise one kind of exception, return an
      [option];
    - floats, the PDF library, the geocoding service and the random source are
      fields of the class [Services]; the calls thread a state [world]. *)

From Stdlib Require Import ZArith NArith List Bool Ascii Lia.
From Stdlib Require String.
Import String.StringSyntax.
Import ListNotations.

Set Implicit Arguments.
Open Scope Z_scope.

(** ** Python strings *)

Definition code := N.
Bind Scope N_scope with code.
Definition str := list code.

Fixpoint bytes_of_string (s : String.string) : list N :=
  match s with
  | String.EmptyString => []
  | String.String a s' => N_of_ascii a :: bytes_of_string s'
  end.

Definition cont (b : N) : N := N.land b 63.

(** UTF-8 decoding of a source literal. *)
Fixpoint utf8_decode (bs : list N) : str :=
  match bs with
  | [] => []
  | b :: r =>
      if (b <? 128)%N then b :: utf8_decode r
      else if (b <? 224)%N then
        match r with
        | b1 :: r1 => (N.land b 31 * 64 + cont b1)%N :: utf8_decode r1
        | _ => []
        end
      else if (b <? 240)%N then
        match r with
        | b1 :: b2 :: r2 =>
            (N.land b 15 * 4096 + cont b1 * 64 + cont b2)%N :: utf8_decode r2
        | _ => []
        end
      else
        match r with
        | b1 :: b2 :: b3 :: r3 =>
            (N.land b 7 * 262144 + cont b1 * 4096 + cont b2 * 64 + cont b3)%N
              :: utf8_decode r3
        | _ => []
        end
  end.

Definition u (s : String.string) : str := utf8_decode (bytes_of_string s).
Arguments u s%_string_scope.

Fixpoint str_eqb (a b : str) : bool :=
  match a, b with
  | [], [] => true
  | x :: a', y :: b' => (x =? y)%N && str_eqb a' b'
  | _, _ => false
  end.

Definition str_in (s : str) (l : list str) : bool := existsb (str_eqb s) l.

(** Truth value of a string: [bool(s)], i.e. [s != ""]. *)
Definition truthy (s : str) : bool :=
  match s with [] => false | _ => true end.

(** [Py_UNICODE_ISSPACE]: the characters [str.strip()] removes and [\s]
    matches. *)
Definition uni_isspace (c : code) : bool :=
  ((9 <=? c) && (c <=? 13) || (28 <=? c) && (c <=? 32) || (c =? 133)
   || (c =? 160) || (c =? 5760) || (8192 <=? c) && (c <=? 8202)
   || (c =? 8232) || (c =? 8233) || (c =? 8239) || (c =? 8287)
   || (c =? 12288))%N.

Fixpoint lstrip (s : str) : str :=
  match s with
  | c :: s' => if uni_isspace c then lstrip s' else s
  | [] => []
  end.

Definition str_strip (s : str) : str := rev (lstrip (rev (lstrip s))).

(** [s.split(sep)] for a one-character separator: never the empty list. *)
Fixpoint str_split (sep : code) (s : str) : list str :=
  match s with
  | [] => [[]]
  | c :: s' =>
      if (c =? sep)%N then [] :: str_split sep s'
      else match str_split sep s' with
           | p :: ps => (c :: p) :: ps
           | [] => [[c]]
           end
  end.

(** ** The interpreter's Unicode tables and limits

    The table of decimal digits ([Py_UNICODE_TODECIMAL]) grows with the
    Unicode version of the interpreter and the limit on the digits of an
    [int] literal is a setting of the interpreter ([0]: no limit), so both
    are parameters, as is the full upper-case mapping of a character
    ([str.upper] maps some characters to several). *)
Definition ascii_digit (c : code) : option Z :=
  if ((48 <=? c) && (c <=? 57))%N then Some (Z.of_N c - 48) else None.

Class PyRuntime := {
  uni_todecimal : code -> option Z;
  uni_upper : code -> str;
  int_max_str_digits : Z;
  (** below 127 the decimal digits are the ASCII digits *)
  todecimal_ascii :
    forall c, (c < 127)%N -> uni_todecimal c = ascii_digit c;
  (** no whitespace character is a digit *)
  todecimal_space :
    forall c, uni_isspace c = true -> uni_todecimal c = None;
  (** the interpreter refuses a limit between 1 and 639 *)
  max_str_digits_range :
    int_max_str_digits = 0 \/ 640 <= int_max_str_digits
}.
Arguments todecimal_ascii {PyRuntime} c _.
Arguments todecimal_space {PyRuntime} c _.

Section Runtime.
Context {RT : PyRuntime}.

(** [\d] of the [re] module on [str] patterns. *)
Definition is_decimal (c : code) : bool :=
  match uni_todecimal c with Some _ => true | None => false end.

(** *** [int(s)] for a string [s]

    Characters below 127 are kept; other whitespace counts as a blank and
    other decimal digits as their ASCII digit. Then: blanks, an optional
    sign, digits with single underscores between them, blanks. *)
Definition int_blank (c : code) : bool :=
  ((9 <=? c) && (c <=? 13) || (c =? 32) || (127 <=? c) && uni_isspace c)%N.

Definition int_digit (c : code) : option Z :=
  if (c <? 127)%N then ascii_digit c else uni_todecimal c.

Fixpoint skip_blanks (s : str) : str :=
  match s with
  | c :: s' => if int_blank c then skip_blanks s' else s
  | [] => []
  end.

(** Scans digits and underscores; [us] records that the previous character
    was an underscore. Returns the value, the number of digits and the rest. *)
Fixpoint scan_digits (acc : Z) (n : nat) (us : bool) (s : str)
  : option (Z * nat * str) :=
  match s with
  | c :: s' =>
      match int_digit c with
      | Some d => scan_digits (acc * 10 + d) (S n) false s'
      | None =>
          if (c =? 95)%N then
            if us then None else scan_digits acc n true s'
          else if us then None else Some (acc, n, s)
      end
  | [] => if us then None else Some (acc, n, [])
  end.

Definition over_limit (n : nat) : bool :=
  (0 <? int_max_str_digits) && (int_max_str_digits <? Z.of_nat n).

Definition int_unsigned (s : str) : option Z :=
  match s with
  | c :: _ =>
      if (c =? 95)%N then None
      else match scan_digits 0 0%nat false s with
           | Some (v, n, rest) =>
               if (n =? 0)%nat then None
               else if over_limit n then None
               else match skip_blanks rest with
                    | [] => Some v
                    | _ => None
                    end
           | None => None
           end
  | [] => None
  end.

(** [int(s)]; [None] stands for [ValueError]. *)
Definition py_int (s : str) : option Z :=
  match skip_blanks s with
  | c :: s' =>
      if (c =? 43)%N then int_unsigned s'
      else if (c =? 45)%N then option_map Z.opp (int_unsigned s')
      else int_unsigned (c :: s')
  | [] => None
  end.

End Runtime.

(** *** Decimal output: [str(n)] and [f"{n:02d}"] *)

Fixpoint uint_codes (d : Decimal.uint) : str :=
  match d with
  | Decimal.Nil => []
  | Decimal.D0 r => 48%N :: uint_codes r
  | Decimal.D1 r => 49%N :: uint_codes r
  | Decimal.D2 r => 50%N :: uint_codes r
  | Decimal.D3 r => 51%N :: uint_codes r
  | Decimal.D4 r => 52%N :: uint_codes r
  | Decimal.D5 r => 53%N :: uint_codes r
  | Decimal.D6 r => 54%N :: uint_codes r
  | Decimal.D7 r => 55%N :: uint_codes r
  | Decimal.D8 r => 56%N :: uint_codes r
  | Decimal.D9 r => 57%N :: uint_codes r
  end.

Definition nat_digits (z : Z) : str := uint_codes (N.to_uint (Z.to_N z)).

(** [str(z)]. *)
Definition str_of_int (z : Z) : str :=
  if z <? 0 then 45%N :: nat_digits (- z) else nat_digits z.

Definition zero_pad (w : nat) (s : str) : str :=
  repeat 48%N (w - length s) ++ s.

(** [f"{z:02d}"]: the sign counts in the width. *)
Definition fmt_02d (z : Z) : str :=
  if z <? 0 then 45%N :: zero_pad 1 (nat_digits (- z))
  else zero_pad 2 (nat_digits z).

(** ** Regular expressions of the [re] module

    The constructs the module's patterns use: one character from a set, a
    sequence, an alternation, an optional part, a bounded or unbounded
    repetition of a set (greedy or lazy) and a numbered group. *)

Inductive regex : Type :=
| Eps
| One (p : code -> bool)
| Cat (r1 r2 : regex)
| Alt (r1 r2 : regex)
| Opt (r : regex)
| Rep (lz : bool) (lo : nat) (hi : option nat) (p : code -> bool)
| Grp (n : nat) (r : regex).

(** The groups set so far, the latest first. *)
Definition groups := list (nat * str).

Fixpoint group (g : groups) (n : nat) : option str :=
  match g with
  | [] => None
  | (m, s) :: g' => if (m =? n)%nat then Some s else group g' n
  end.

Definition dec (hi : option nat) : option nat := option_map pred hi.

Section Matcher.
Variable R : Type.

(** [p{lo,hi}] followed by [k]: a greedy repetition takes one more character
    before it tries [k], a lazy one tries [k] first. *)
Fixpoint rep (lz : bool) (p : code -> bool) (lo : nat) (hi : option nat)
    (k : str -> option R) (s : str) {struct s} : option R :=
  match lo with
  | S lo' =>
      match s with
      | c :: s' => if p c then rep lz p lo' (dec hi) k s' else None
      | [] => None
      end
  | O =>
      match hi with
      | Some O => k s
      | _ =>
          match s with
          | c :: s' =>
              if p c then
                if lz then
                  match k s with
                  | Some x => Some x
                  | None => rep lz p O (dec hi) k s'
                  end
                else
                  match rep lz p O (dec hi) k s' with
                  | Some x => Some x
                  | None => k s
                  end
              else k s
          | [] => k s
          end
      end
  end.

(** Backtracking matcher in continuation-passing style: [rmatch r s g k]
    matches [r] at the start of [s] and hands the rest and the groups to
    [k]; when [k] fails the next choice of [r] is tried. *)
Fixpoint rmatch (r : regex) (s : str) (g : groups)
    (k : str -> groups -> option R) : option R :=
  match r with
  | Eps => k s g
  | One p =>
      match s with
      | c :: s' => if p c then k s' g else None
      | [] => None
      end
  | Cat r1 r2 => rmatch r1 s g (fun s' g' => rmatch r2 s' g' k)
  | Alt r1 r2 =>
      match rmatch r1 s g k with
      | Some x => Some x
      | None => rmatch r2 s g k
      end
  | Opt r1 =>
      match rmatch r1 s g k with
      | Some x => Some x
      | None => k s g
      end
  | Rep lz lo hi p => rep lz p lo hi (fun s' => k s' g) s
  | Grp n r1 =>
      rmatch r1 s g
        (fun s' g' =>
           k s' ((n, firstn (length s - length s') s) :: g'))
  end.

End Matcher.

(** [pattern.match(s)]: the rest of the string and the groups. *)
Definition re_match (r : regex) (s : str) : option (str * groups) :=
  rmatch r s [] (fun s' g => Some (s', g)).

(** [re.search(pattern, s)]: the leftmost start that matches. *)
Fixpoint re_search (r : regex) (s : str) : option groups :=
  match re_match r s with
  | Some (_, g) => Some g
  | None =>
      match s with
      | [] => None
      | _ :: s' => re_search r s'
      end
  end.

Definition found (m : option groups) : bool :=
  match m with Some _ => true | None => false end.

(** *** Character sets *)

Definition is_upper (c : code) : bool := ((65 <=? c) && (c <=? 90))%N.
Definition is_lower (c : code) : bool := ((97 <=? c) && (c <=? 122))%N.

(** A literal character of a pattern compiled with [re.IGNORECASE]. The
    patterns of this module hold ASCII letters and caseless characters
    (Arabic letters, digits, blanks, punctuation) only. An ASCII letter
    matches both its cases and the characters that lower-case or case-fold
    to it: U+0130 and U+0131 for [i], U+017F for [s], U+212A for [k]. *)
Definition ichar (p c : code) : bool :=
  (if is_upper p || is_lower p then
     let l := if is_upper p then p + 32 else p in
     (c =? l) || (c =? l - 32)
     || (l =? 105) && ((c =? 304) || (c =? 305))
     || (l =? 115) && (c =? 383)
     || (l =? 107) && (c =? 8490)
   else c =? p)%N.

(** [[A-Z]] compiled with [re.IGNORECASE]. *)
Definition iletter (c : code) : bool :=
  (is_upper c || is_lower c
   || (c =? 304) || (c =? 305) || (c =? 383) || (c =? 8490))%N.

Definition chr_in (cs : str) (c : code) : bool := existsb (N.eqb c) cs.

Definition rseq (rs : list regex) : regex := fold_right Cat Eps rs.

Fixpoint alts (rs : list regex) : regex :=
  match rs with
  | [] => Rep false 1 (Some 0%nat) (fun _ => false)
  | [r] => r
  | r :: rs' => Alt r (alts rs')
  end.

(** A literal string, case-sensitive and with [re.IGNORECASE]. *)
Definition lit (s : str) : regex := rseq (map (fun p => One (N.eqb p)) s).
Definition lit_i (s : str) : regex := rseq (map (fun p => One (ichar p)) s).

(** ** [detect_report_source] *)

Definition najm_patterns : list str :=
  [ u "نجم";
    u "najm";
    u "تقرير تحديد المسؤولية";
    u "Liability Determination Report";
    u "التقرير النهائي";
    u "Final Report";
    u "رقم الحالة";
    u "Case Number";
    u "وقت الحادث";
    u "Accident Time";
    u "مكان الحادث";
    u "Accident Location";
    u "أحداثيات الحادث";
    u "Coordinate";
    u "نسبة المسؤولية";
    u "سبب الحادث";
    u "Cause of Acc" ].

Definition traffic_patterns : list str :=
  [ u "المرور";
    u "إدارة المرور";
    u "traffic";
    u "الإدارة العامة للمرور";
    u "مخالفة مرورية";
    u "تقرير مروري" ].

(** [re.search(pattern, text, re.IGNORECASE)] for a pattern without
    metacharacters, as all the patterns of the two lists are. *)
Definition search_i (pattern text : str) : bool :=
  found (re_search (lit_i pattern) text).

Definition detect_report_source (text : str) : bool * str :=
  let najm_score :=
    fold_left
      (fun score pattern => if search_i pattern text then score + 1 else score)
      najm_patterns 0 in
  if 2 <=? najm_score then (true, u "نجم")
  else
    match find (fun pattern => search_i pattern text) traffic_patterns with
    | Some _ => (true, u "المرور")
    | None => if 1 <=? najm_score then (true, u "نجم") else (false, [])
    end.

(** ** Exceptions *)

Inductive exn : Type :=
  ValueError | TypeError | IndexError | AttributeError | OverflowError.

Inductive res (A : Type) : Type :=
| Ok (a : A)
| Raise (e : exn).
Arguments Ok {A} a.
Arguments Raise {A} e.

Definition rbind {A B} (x : res A) (f : A -> res B) : res B :=
  match x with
  | Ok a => f a
  | Raise e => Raise e
  end.

Notation "x <- e1 ;; e2" := (rbind e1 (fun x => e2))
  (at level 61, e1 at next level, right associativity).

Definition is_value_error (e : exn) : bool :=
  match e with ValueError => true | _ => false end.

Definition is_value_or_index_error (e : exn) : bool :=
  match e with ValueError | IndexError => true | _ => false end.

(** ** Dates: [datetime(year, month, day)] *)

(** The module only builds datetimes at midnight, so a datetime is its
    calendar date. *)
Record datetime : Type := { year : Z; month : Z; day : Z }.

Definition is_leap (y : Z) : bool :=
  (y mod 4 =? 0) && (negb (y mod 100 =? 0) || (y mod 400 =? 0)).

Definition days_in_month (y m : Z) : Z :=
  if m =? 2 then (if is_leap y then 29 else 28)
  else if (m =? 4) || (m =? 6) || (m =? 9) || (m =? 11) then 30
  else 31.

(** The constructor raises [ValueError] on a date that does not exist. *)
Definition new_datetime (y m d : Z) : res datetime :=
  if (1 <=? y) && (y <=? 9999) && (1 <=? m) && (m <=? 12)
     && (1 <=? d) && (d <=? days_in_month y m)
  then Ok {| year := y; month := m; day := d |}
  else Raise ValueError.

Definition days_before_year (y : Z) : Z :=
  let p := y - 1 in p * 365 + p / 4 - p / 100 + p / 400.

Fixpoint days_before_month_aux (y : Z) (m : nat) : Z :=
  match m with
  | O => 0
  | S m' => days_before_month_aux y m' + days_in_month y (Z.of_nat m)
  end.

Definition days_before_month (y m : Z) : Z :=
  days_before_month_aux y (Z.to_nat (m - 1)).

(** [d.toordinal()]. *)
Definition toordinal (d : datetime) : Z :=
  days_before_year (year d) + days_before_month (year d) (month d) + day d.

(** [(a - b).days]. *)
Definition days_between (a b : datetime) : Z := toordinal a - toordinal b.

Section Extractors.
Context {RT : PyRuntime}.

Definition digit : code -> bool := is_decimal.
Definition non_digit (c : code) : bool := negb (is_decimal c).
Definition digits (lo hi : nat) : regex := Rep false lo (Some hi) digit.

(** [int(match.group(n))]: a group that did not take part is [None], on
    which [int] raises [TypeError]. *)
Definition int_group (g : groups) (n : nat) : res Z :=
  match group g n with
  | Some s =>
      match py_int s with
      | Some z => Ok z
      | None => Raise ValueError
      end
  | None => Raise TypeError
  end.

(** ** [extract_date_from_text] *)

(** [(?:وقت الحادث|Accident Time|تاريخ الإصدار|Version Date)[^\d]*(\d{1,2})[/-](\d{1,2})[/-](20\d{2})],
    with [re.IGNORECASE]. *)
Definition date_labels : regex :=
  alts [ lit_i (u "وقت الحادث"); lit_i (u "Accident Time");
         lit_i (u "تاريخ الإصدار"); lit_i (u "Version Date") ].

Definition slash_or_dash : regex := One (chr_in (u "/-")).

Definition year_20xx : regex := Cat (lit (u "20")) (digits 2 2).

Definition accident_date_pattern : regex :=
  rseq [ date_labels; Rep false 0 None non_digit;
        Grp 1 (digits 1 2); slash_or_dash;
        Grp 2 (digits 1 2); slash_or_dash;
        Grp 3 year_20xx ].

(** [(\d{2})/(\d{2})/(20\d{2})], [(\d{1,2})[/-](\d{1,2})[/-](20\d{2})] and
    [(20\d{2})[/-](\d{1,2})[/-](\d{1,2})], case-sensitive. *)
Definition date_patterns : list regex :=
  [ rseq [ Grp 1 (digits 2 2); One (N.eqb 47); Grp 2 (digits 2 2);
          One (N.eqb 47); Grp 3 year_20xx ];
    rseq [ Grp 1 (digits 1 2); slash_or_dash; Grp 2 (digits 1 2);
          slash_or_dash; Grp 3 year_20xx ];
    rseq [ Grp 1 year_20xx; slash_or_dash; Grp 2 (digits 1 2);
          slash_or_dash; Grp 3 (digits 1 2) ] ].

(** Day, month, year from the groups 1, 2, 3. *)
Definition date_dmy (g : groups) : res datetime :=
  day <- int_group g 1 ;;
  month <- int_group g 2 ;;
  year <- int_group g 3 ;;
  new_datetime year month day.

(** [len(groups[0])]; [groups[0]] is [None] when group 1 did not take part. *)
Definition len_group (g : groups) (n : nat) : res nat :=
  match group g n with
  | Some s => Ok (length s)
  | None => Raise TypeError
  end.

Definition date_generic (g : groups) : res datetime :=
  l <- len_group g 1 ;;
  if (l =? 4)%nat then
    year <- int_group g 1 ;;
    month <- int_group g 2 ;;
    day <- int_group g 3 ;;
    new_datetime year month day
  else
    day <- int_group g 1 ;;
    month <- int_group g 2 ;;
    year <- int_group g 3 ;;
    new_datetime year month day.

(** The loop over [patterns]: a [ValueError] or [IndexError] moves on to the
    next pattern, any other exception leaves the function. *)
Fixpoint date_loop (patterns : list regex) (text : str)
  : res (option datetime) :=
  match patterns with
  | [] => Ok None
  | pattern :: rest =>
      match re_search pattern text with
      | Some g =>
          match date_generic g with
          | Ok d => Ok (Some d)
          | Raise e =>
              if is_value_or_index_error e then date_loop rest text
              else Raise e
          end
      | None => date_loop rest text
      end
  end.

Definition extract_date_from_text (text : str) : res (option datetime) :=
  let generic := date_loop date_patterns text in
  match re_search accident_date_pattern text with
  | Some g =>
      match date_dmy g with
      | Ok d => Ok (Some d)
      | Raise e => if is_value_error e then generic else Raise e
      end
  | None => generic
  end.

(** ** [extract_time_from_text] *)

Definition spaces (lo : nat) : regex := Rep false lo None uni_isspace.
Definition colon : regex := One (N.eqb 58).

(** [(?:وقت الحادث|Accident Time)[^\d]*\d{1,2}/\d{1,2}/\d{4}\s+(\d{1,2}):(\d{2}):?(\d{2})?],
    with [re.IGNORECASE]. *)
Definition accident_time_pattern : regex :=
  rseq [ alts [ lit_i (u "وقت الحادث"); lit_i (u "Accident Time") ];
        Rep false 0 None non_digit;
        digits 1 2; One (N.eqb 47); digits 1 2; One (N.eqb 47); digits 4 4;
        spaces 1;
        Grp 1 (digits 1 2); colon; Grp 2 (digits 2 2); Opt colon;
        Opt (Grp 3 (digits 2 2)) ].

(** [(\d{1,2}):(\d{2}):(\d{2})],
    [(\d{1,2}):(\d{2})\s*(ص|م|AM|PM|صباح|مساء)?] and
    [الساعة\s*(\d{1,2}):?(\d{2})?\s*(ص|م|صباح|مساء)?], each searched with
    [re.IGNORECASE]. *)
Definition time_patterns : list regex :=
  [ rseq [ Grp 1 (digits 1 2); colon; Grp 2 (digits 2 2); colon;
          Grp 3 (digits 2 2) ];
    rseq [ Grp 1 (digits 1 2); colon; Grp 2 (digits 2 2); spaces 0;
          Opt (Grp 3 (alts [ lit_i (u "ص"); lit_i (u "م"); lit_i (u "AM");
                             lit_i (u "PM"); lit_i (u "صباح");
                             lit_i (u "مساء") ])) ];
    rseq [ lit_i (u "الساعة"); spaces 0; Grp 1 (digits 1 2); Opt colon;
          Opt (Grp 2 (digits 2 2)); spaces 0;
          Opt (Grp 3 (alts [ lit_i (u "ص"); lit_i (u "م");
                             lit_i (u "صباح"); lit_i (u "مساء") ])) ] ].

(** [x if x else None] on a group: [None] and the empty string are false. *)
Definition nonempty_group (g : groups) (n : nat) : option str :=
  match group g n with
  | Some s => if truthy s then Some s else None
  | None => None
  end.

Definition period_in (period : option str) (l : list str) : bool :=
  match period with
  | Some s => str_in s l
  | None => false
  end.

(** [f"{hour:02d}:{minute:02d}"]. *)
Definition hhmm (hour minute : Z) : str :=
  fmt_02d hour ++ 58%N :: fmt_02d minute.

(** The body of the loop over [patterns] once a pattern matched. *)
Definition time_generic (g : groups) : res str :=
  hour <- int_group g 1 ;;
  minute <- match nonempty_group g 2 with
            | Some s =>
                match py_int s with
                | Some z => Ok z
                | None => Raise ValueError
                end
            | None => Ok 0
            end ;;
  let period := nonempty_group g 3 in
  let hour :=
    if period_in period [u "م"; u "PM"; u "مساء"] && negb (hour =? 12)
    then hour + 12
    else if period_in period [u "ص"; u "AM"; u "صباح"] && (hour =? 12)
    then 0
    else hour in
  Ok (hhmm hour minute).

Fixpoint time_loop (patterns : list regex) (text : str) : res (option str) :=
  match patterns with
  | [] => Ok None
  | pattern :: rest =>
      match re_search pattern text with
      | Some g => t <- time_generic g ;; Ok (Some t)
      | None => time_loop rest text
      end
  end.

Definition extract_time_from_text (text : str) : res (option str) :=
  match re_search accident_time_pattern text with
  | Some g =>
      hour <- int_group g 1 ;;
      minute <- int_group g 2 ;;
      Ok (Some (hhmm hour minute))
  | None => time_loop time_patterns text
  end.

(** ** [extract_location_from_text] *)

Fixpoint is_prefix (p s : str) : bool :=
  match p, s with
  | [], _ => true
  | x :: p', y :: s' => (x =? y)%N && is_prefix p' s'
  | _ :: _, [] => false
  end.

(** [sub in text]. *)
Fixpoint str_contains (sub text : str) : bool :=
  is_prefix sub text
  || match text with
     | [] => false
     | _ :: text' => str_contains sub text'
     end.

(** [s.upper()]. *)
Definition str_upper (s : str) : str := flat_map uni_upper s.

(** The character set of the labelled pattern: the letters of the ten city
    names, written in the source as one bracket expression. *)
Definition city_letters : str :=
  u "الرياضجدةمكةالمدينةالدمامالخبرالطائفتبوكأبهاالقصيم".

(** [(?:مكان الحادث|Accident Location)[^\n]*?([...]+)], case-sensitive. *)
Definition location_pattern : regex :=
  rseq [ alts [ lit (u "مكان الحادث"); lit (u "Accident Location") ];
        Rep true 0 None (fun c => negb (c =? 10)%N);
        Grp 1 (Rep false 1 None (chr_in city_letters)) ].

Definition areas : list str :=
  [ u "الرياض"; u "جدة"; u "مكة"; u "المدينة"; u "الدمام"; u "الخبر";
    u "الطائف"; u "تبوك"; u "أبها"; u "القصيم" ].

(** [(\d{1,2}\.\d+)\s*,\s*(\d{1,2}\.\d+)]. *)
Definition decimal_number : regex :=
  rseq [ digits 1 2; One (N.eqb 46); Rep false 1 None digit ].

Definition coord_pattern : regex :=
  rseq [ Grp 1 decimal_number; spaces 0; One (N.eqb 44); spaces 0;
        Grp 2 decimal_number ].

(** [([A-Z]{4}\d{4})], with [re.IGNORECASE]. *)
Definition address_pattern : regex :=
  Grp 1 (Cat (Rep false 4 (Some 4%nat) iletter) (digits 4 4)).

(** [match.group(n)] used as a string: a method call on [None] raises
    [AttributeError]. *)
Definition str_group (g : groups) (n : nat) : res str :=
  match group g n with
  | Some s => Ok s
  | None => Raise AttributeError
  end.

Definition extract_location_from_text (text : str) : res (str * str) :=
  city <- match re_search location_pattern text with
          | Some g => s <- str_group g 1 ;; Ok (str_strip s)
          | None => Ok []
          end ;;
  let city :=
    if negb (truthy city) then
      match find (fun area => str_contains area text) areas with
      | Some area => area
      | None => city
      end
    else city in
  coordinates <- match re_search coord_pattern text with
                 | Some g =>
                     a <- str_group g 1 ;;
                     b <- str_group g 2 ;;
                     Ok (a ++ u ", " ++ b)
                 | None => Ok []
                 end ;;
  match re_search address_pattern text with
  | Some g => s <- str_group g 1 ;; Ok (str_upper s, coordinates)
  | None => Ok (city, coordinates)
  end.

Definition extract_location_simple (text : str) : res str :=
  r <- extract_location_from_text text ;;
  let '(city, coords) := r in
  Ok (if truthy city then city else coords).

End Extractors.

(** ** The comparators of dates and times *)

Section Comparators.
Context {RT : PyRuntime}.

Definition char_range (a b : code) : regex :=
  One (fun c => (a <=? c) && (c <=? b))%N.

(** The pattern [datetime.strptime] compiles for ["%Y-%m-%d"]:
    [(?P<Y>\d\d\d\d)-(?P<m>1[0-2]|0[1-9]|[1-9])-(?P<d>3[0-1]|[1-2]\d|0[1-9]|[1-9]| [1-9])]. *)
Definition strptime_pattern : regex :=
  rseq [ Grp 1 (digits 4 4); One (N.eqb 45);
        Grp 2 (alts [ Cat (One (N.eqb 49)) (char_range 48 50);
                      Cat (One (N.eqb 48)) (char_range 49 57);
                      char_range 49 57 ]);
        One (N.eqb 45);
        Grp 3 (alts [ Cat (One (N.eqb 51)) (char_range 48 49);
                      Cat (char_range 49 50) (One digit);
                      Cat (One (N.eqb 48)) (char_range 49 57);
                      char_range 49 57;
                      Cat (One (N.eqb 32)) (char_range 49 57) ]) ].

(** [datetime.strptime(s, "%Y-%m-%d")]: the pattern must match at the start
    and leave nothing unconverted; the fields must make a date. *)
Definition strptime_ymd (s : str) : res datetime :=
  match re_match strptime_pattern s with
  | Some ([], g) =>
      y <- int_group g 1 ;;
      m <- int_group g 2 ;;
      d <- int_group g 3 ;;
      new_datetime y m d
  | Some (_ :: _, _) => Raise ValueError
  | None => Raise ValueError
  end.

Definition cannot_compare : str := u "تعذر المقارنة".

Definition compare_dates (extracted : datetime) (user_date : str)
    (max_diff_days : Z) : bool * str :=
  match strptime_ymd user_date with
  | Ok user_dt =>
      let diff := Z.abs (days_between extracted user_dt) in
      if diff <=? max_diff_days then
        (true,
         if 0 <? diff then u "مطابق (فرق " ++ str_of_int diff ++ u " يوم)"
         else u "مطابق")
      else (false, u "غير مطابق (فرق " ++ str_of_int diff ++ u " يوم)")
  | Raise _ => (false, cannot_compare)
  end.

(** [int(parts[0]) * 60 + int(parts[1])] for [parts = s.split(":")]. *)
Definition int_part (parts : list str) (i : nat) : res Z :=
  match nth_error parts i with
  | Some p =>
      match py_int p with
      | Some z => Ok z
      | None => Raise ValueError
      end
  | None => Raise IndexError
  end.

Definition minutes_of (s : str) : res Z :=
  let parts := str_split 58 s in
  h <- int_part parts 0 ;;
  m <- int_part parts 1 ;;
  Ok (h * 60 + m).

Definition compare_times (extracted user_start user_end : str)
    (max_diff_hours : Z) : bool * str :=
  match (ext_minutes <- minutes_of extracted ;;
         start_minutes <- minutes_of user_start ;;
         end_minutes <- minutes_of user_end ;;
         Ok (ext_minutes, start_minutes, end_minutes)) with
  | Ok (ext_minutes, start_minutes, end_minutes) =>
      let tolerance := max_diff_hours * 60 in
      if (start_minutes - tolerance <=? ext_minutes)
         && (ext_minutes <=? end_minutes + tolerance)
      then (true, u "مطابق للنطاق الزمني")
      else
        let diff :=
          Z.min (Z.abs (ext_minutes - start_minutes))
                (Z.abs (ext_minutes - end_minutes)) / 60 in
        (false, u "خارج النطاق بـ " ++ str_of_int diff ++ u " ساعة")
  | Raise _ => (false, cannot_compare)
  end.

End Comparators.

(** ** Floats, the PDF library, the geocoding service, the random source

    What the module reaches outside itself. A call to the outside takes the
    state of the world and returns the next one. Of the functions of [math]
    and of float arithmetic, those that can raise return an [option]. *)
Class Services := {
  float : Type;
  world : Type;
  path : Type;
  f_of_int : Z -> float;
  float_lit : String.string -> float;
  f_neg : float -> float;
  f_add : float -> float -> float;
  f_sub : float -> float -> float;
  f_mul : float -> float -> float;
  f_div : float -> float -> float;
  f_pow : float -> Z -> option float;
  f_leb : float -> float -> bool;
  f_eqb : float -> float -> bool;
  math_radians : float -> float;
  math_sin : float -> option float;
  math_cos : float -> option float;
  math_sqrt : float -> option float;
  math_atan2 : float -> float -> float;
  float_of_str : str -> option float;
  fmt_f : nat -> float -> str;
  float_str : float -> str;
  HAS_PYMUPDF : bool;
  fitz_text : path -> world -> option (list str) * world;
  locationiq_search : str -> world -> option (float * float * str) * world;
  locationiq_reverse : float -> float -> world -> option str * world;
  random_uniform : float -> float -> world -> float * world;
  (** [0 == 0] *)
  f_eqb_zero : f_eqb (f_of_int 0) (f_of_int 0) = true
}.

Arguments float_lit {Services} s%_string_scope.

Section Pipeline.
Context {RT : PyRuntime} {SV : Services}.

(** Computations that may raise and that talk to the outside. *)
Definition M (A : Type) : Type := world -> res A * world.

Definition ret {A} (a : A) : M A := fun w => (Ok a, w).

Definition bind {A B} (m : M A) (f : A -> M B) : M B :=
  fun w =>
    match m w with
    | (Ok a, w') => f a w'
    | (Raise e, w') => (Raise e, w')
    end.

Definition lift {A} (r : res A) : M A := fun w => (r, w).

Definition call {A} (f : world -> A * world) : M A :=
  fun w => let (a, w') := f w in (Ok a, w').

Notation "x <~ e1 ;; e2" := (bind e1 (fun x => e2))
  (at level 61, e1 at next level, right associativity).
Notation "' p <~ e1 ;; e2" := (bind e1 (fun x => let 'p := x in e2))
  (at level 61, p pattern, e1 at next level, right associativity).

Definition MAX_DISTANCE_KM : float := float_lit "5.0".

Definition nonzero (x : float) : bool := negb (f_eqb x (f_of_int 0)).

Definition raised {A} (o : option A) (e : exn) : res A :=
  match o with
  | Some a => Ok a
  | None => Raise e
  end.

Definition extract_text_from_pdf (pdf_path : path) : M str :=
  if negb HAS_PYMUPDF then ret []
  else
    pages <~ call (fitz_text pdf_path) ;;
    match pages with
    | Some texts => ret (concat texts)
    | None => ret []
    end.

(** Haversine distance; [sin], [cos], [sqrt] and [**] raise outside their
    domain. *)
Definition calculate_distance_km (lat1 lng1 lat2 lng2 : float) : res float :=
  let R := f_of_int 6371 in
  let two := f_of_int 2 in
  let lat1_rad := math_radians lat1 in
  let lat2_rad := math_radians lat2 in
  let delta_lat := math_radians (f_sub lat2 lat1) in
  let delta_lng := math_radians (f_sub lng2 lng1) in
  s1 <- raised (math_sin (f_div delta_lat two)) ValueError ;;
  p1 <- raised (f_pow s1 2) OverflowError ;;
  c1 <- raised (math_cos lat1_rad) ValueError ;;
  c2 <- raised (math_cos lat2_rad) ValueError ;;
  s2 <- raised (math_sin (f_div delta_lng two)) ValueError ;;
  p2 <- raised (f_pow s2 2) OverflowError ;;
  let a := f_add p1 (f_mul (f_mul c1 c2) p2) in
  q1 <- raised (math_sqrt a) ValueError ;;
  q2 <- raised (math_sqrt (f_sub (f_of_int 1) a)) ValueError ;;
  let c := f_mul two (math_atan2 q1 q2) in
  Ok (f_mul R c).

(** [geocode_address]: the request and the decoding of its answer are one
    call to the service; an error or an empty answer gives [(0, 0, "")]. *)
Definition geocode_address (address : str) : M (float * float * str) :=
  let search_query := address ++ u ", Saudi Arabia, السعودية" in
  answer <~ call (locationiq_search search_query) ;;
  match answer with
  | Some r => ret r
  | None => ret (f_of_int 0, f_of_int 0, [])
  end.

Definition reverse_geocode (lat lng : float) : M str :=
  answer <~ call (locationiq_reverse lat lng) ;;
  match answer with
  | Some name => ret name
  | None => ret []
  end.

(** [a or b] on strings. *)
Definition str_or (a b : str) : str := if truthy a then a else b.

(** [s.replace(" ", "")]. *)
Definition remove_spaces (s : str) : str :=
  filter (fun c => negb (c =? 32)%N) s.

(** The coordinates of the report: each stays [0.0] unless its assignment
    is reached before [float] or the indexing raises. *)
Definition parse_coords (extracted_coords : str) : float * float :=
  let zero := float_lit "0.0" in
  if truthy extracted_coords then
    let parts := str_split 44 (remove_spaces extracted_coords) in
    match nth_error parts 0 with
    | Some p0 =>
        match float_of_str p0 with
        | Some lat =>
            match nth_error parts 1 with
            | Some p1 =>
                match float_of_str p1 with
                | Some lng => (lat, lng)
                | None => (lat, zero)
                end
            | None => (lat, zero)
            end
        | None => (zero, zero)
        end
    | None => (zero, zero)
    end
  else (zero, zero).

Definition compare_locations (extracted_city extracted_coords user_address : str)
  : M (bool * str) :=
  if negb (truthy extracted_city) && negb (truthy extracted_coords)
  then ret (false, u "لم يُعثر على موقع في التقرير")
  else
    let '(report_lat, report_lng) := parse_coords extracted_coords in
    '(user_lat, user_lng, user_location) <~ geocode_address user_address ;;
    '(user_lat, user_lng, user_location) <~
       (if negb (nonzero user_lat) && negb (nonzero user_lng) then
          let prefix :=
            if (4 <=? length user_address)%nat
            then str_upper (firstn 4 user_address)
            else user_address in
          geocode_address prefix
        else ret (user_lat, user_lng, user_location)) ;;
    if nonzero report_lat && nonzero report_lng
       && nonzero user_lat && nonzero user_lng
    then
      distance <~
        lift (calculate_distance_km report_lat report_lng user_lat user_lng) ;;
      report_location <~ reverse_geocode report_lat report_lng ;;
      let report_location :=
        if negb (truthy report_location) && truthy extracted_city
        then extracted_city else report_location in
      if f_leb distance MAX_DISTANCE_KM then
        ret (true,
             u "مطابق - المسافة " ++ fmt_f 1 distance ++ u " كم ("
               ++ str_or report_location (u "موقع قريب") ++ u ")")
      else
        ret (false,
             u "غير مطابق - المسافة " ++ fmt_f 1 distance
               ++ u " كم (الحد الأقصى " ++ float_str MAX_DISTANCE_KM
               ++ u " كم)")
    else if nonzero report_lat && nonzero report_lng then
      report_location <~ reverse_geocode report_lat report_lng ;;
      if truthy report_location then
        ret (true,
             u "إحداثيات التقرير: " ++ report_location ++ u " ("
               ++ fmt_f 4 report_lat ++ u ", " ++ fmt_f 4 report_lng ++ u ")")
      else
        ret (true,
             u "إحداثيات: " ++ fmt_f 4 report_lat ++ u ", "
               ++ fmt_f 4 report_lng)
    else
      let by_name : M (bool * str) :=
        if truthy extracted_city
        then ret (true, u "المدينة: " ++ extracted_city)
        else ret (false, u "تعذر التحقق من الموقع") in
      if truthy extracted_city && nonzero user_lat then
        '(city_lat, city_lng, _) <~ geocode_address extracted_city ;;
        if nonzero city_lat then
          distance <~
            lift (calculate_distance_km city_lat city_lng user_lat user_lng) ;;
          if f_leb distance (f_mul MAX_DISTANCE_KM (f_of_int 2)) then
            ret (true,
                 u "نفس المنطقة - " ++ extracted_city ++ u " ("
                   ++ fmt_f 1 distance ++ u " كم)")
          else
            ret (false,
                 u "مناطق مختلفة - التقرير: " ++ extracted_city
                   ++ u ", المسافة: " ++ fmt_f 1 distance ++ u " كم")
        else by_name
      else by_name.

(** ** [verify_report] *)

Record VerificationResult : Type := {
  is_valid_source : bool;
  source_name : str;
  extracted_date : option datetime;
  extracted_time : option str;
  extracted_location : str;
  date_match : bool;
  time_match : bool;
  location_match : bool;
  confidence : Z;
  message : str;
  matches : list (str * str);
  raw_text : str
}.

(** The branch [if not text:] of [verify_report]. *)
Definition demo_mode (raw user_date user_start_time user_end_time
    user_address : str) : M VerificationResult :=
  let is_valid_source := true in
  let source_name := u "نجم" in
  let date_match := true in
  let time_match := true in
  '(user_lat, user_lng, user_location) <~ geocode_address user_address ;;
  '(location_match, extracted_location, location_msg) <~
     (if nonzero user_lat && nonzero user_lng then
        offset_lat <~
          call (random_uniform (f_neg (float_lit "0.02")) (float_lit "0.02")) ;;
        offset_lng <~
          call (random_uniform (f_neg (float_lit "0.015"))
                               (float_lit "0.015")) ;;
        let report_lat := f_add user_lat offset_lat in
        let report_lng := f_add user_lng offset_lng in
        distance <~
          lift (calculate_distance_km report_lat report_lng user_lat user_lng) ;;
        named <~ reverse_geocode report_lat report_lng ;;
        let report_location := str_or named user_location in
        let location_match := f_leb distance MAX_DISTANCE_KM in
        ret (location_match,
             fmt_f 6 report_lat ++ u ", " ++ fmt_f 6 report_lng,
             if location_match then
               u "مطابق - المسافة " ++ fmt_f 1 distance ++ u " كم ("
                 ++ report_location ++ u ")"
             else u "غير مطابق - المسافة " ++ fmt_f 1 distance ++ u " كم")
      else
        ret (true, [],
             u "الموقع: " ++ firstn 4 user_address ++ u " - تم التحقق")) ;;
  let conf := 30 in
  let conf := if date_match then conf + 30 else conf in
  let conf := if time_match then conf + 20 else conf in
  let conf := if location_match then conf + 20 else conf in
  let confidence := Z.min conf 100 in
  let message :=
    if 80 <=? confidence then u "تم التحقق من التقرير بنجاح - البيانات متطابقة"
    else if 50 <=? confidence then u "تحقق جزئي - بعض البيانات تحتاج مراجعة"
    else u "تحذير - يرجى التأكد من صحة البيانات" in
  ret {| is_valid_source := is_valid_source;
         source_name := source_name;
         extracted_date := None;
         extracted_time := None;
         extracted_location := extracted_location;
         date_match := date_match;
         time_match := time_match;
         location_match := location_match;
         confidence := confidence;
         message := message;
         matches :=
           [ (u "source", u "تقرير " ++ source_name ++ u " - تم التحقق ✓");
             (u "date", u "التاريخ: " ++ user_date ++ u " - مطابق ✓");
             (u "time",
              u "الوقت: " ++ user_start_time ++ u " - " ++ user_end_time
                ++ u " - مطابق ✓");
             (u "location", location_msg) ];
         raw_text := raw |}.

(** The rest of [verify_report], run on a text that is not empty. *)
Definition verify_text (text raw user_date user_start_time user_end_time
    user_address : str) : M VerificationResult :=
  let '(is_valid_source, source_name) := detect_report_source text in
  let source_msg :=
    if is_valid_source then u "تقرير " ++ source_name ++ u " - تم التحقق ✓"
    else u "مصدر التقرير غير معروف ✗" in
  extracted_date <~ lift (extract_date_from_text text) ;;
  let '(date_match, date_msg) :=
    match extracted_date with
    | Some d =>
        let '(date_match, date_msg) := compare_dates d user_date 1 in
        (date_match, u "التاريخ: " ++ date_msg)
    | None => (false, u "لم يُعثر على تاريخ في التقرير")
    end in
  extracted_time <~ lift (extract_time_from_text text) ;;
  let '(time_match, time_msg) :=
    match extracted_time with
    | Some t =>
        if truthy t then
          let '(time_match, time_msg) :=
            compare_times t user_start_time user_end_time 2 in
          (time_match, u "الوقت: " ++ time_msg)
        else (false, u "لم يُعثر على وقت في التقرير")
    | None => (false, u "لم يُعثر على وقت في التقرير")
    end in
  '(extracted_city, extracted_coords) <~
     lift (extract_location_from_text text) ;;
  '(location_match, location_msg) <~
     (if truthy extracted_city || truthy extracted_coords then
        '(loc_match, loc_msg) <~
           compare_locations extracted_city extracted_coords user_address ;;
        ret (loc_match, u "الموقع: " ++ loc_msg)
      else ret (false, u "لم يُعثر على موقع في التقرير")) ;;
  let score := 0 in
  let score := if is_valid_source then score + 30 else score in
  let score := if date_match then score + 30 else score in
  let score := if time_match then score + 20 else score in
  let score := if location_match then score + 20 else score in
  let message :=
    if 80 <=? score then u "تم التحقق من التقرير بنجاح - البيانات متطابقة"
    else if 50 <=? score then u "تحقق جزئي - بعض البيانات غير متطابقة"
    else u "تحذير - التقرير قد لا يكون صحيحاً" in
  ret {| is_valid_source := is_valid_source;
         source_name := source_name;
         extracted_date := extracted_date;
         extracted_time := extracted_time;
         extracted_location := str_or extracted_city extracted_coords;
         date_match := date_match;
         time_match := time_match;
         location_match := location_match;
         confidence := score;
         message := message;
         matches :=
           [ (u "source", source_msg); (u "date", date_msg);
             (u "time", time_msg); (u "location", location_msg) ];
         raw_text := raw |}.

Definition verify_report (pdf_path : path)
    (user_date user_start_time user_end_time user_address : str)
  : M VerificationResult :=
  text <~ extract_text_from_pdf pdf_path ;;
  let raw := if truthy text then firstn 500 text else [] in
  if negb (truthy text) then
    demo_mode raw user_date user_start_time user_end_time user_address
  else
    verify_text text raw user_date user_start_time user_end_time user_address.

End Pipeline.

(** ** The caller's decision ([create_request] in [backend/app/main.py]) *)

Inductive request_status : Type :=
  STATUS_REJECTED | STATUS_APPROVED | STATUS_PENDING.

Definition decide (confidence : Z) : request_status :=
  if confidence <? 80 then STATUS_REJECTED
  else if 95 <=? confidence then STATUS_APPROVED
  else STATUS_PENDING.

(** ** The tables of CPython 3.11 (Unicode 14.0)

    [decimal_zeros] lists the digit zero of every block of decimal digits;
    [upper_runs] lists runs [(first, count, stride, image of first)] of
    characters with a one-character upper case; [upper_special] lists the
    characters whose upper case has several characters. *)

Definition decimal_zeros : list code :=
  [
    48; 1632; 1776; 1984; 2406; 2534; 2662; 2790; 2918; 3046; 3174; 3302;
    3430; 3558; 3664; 3792; 3872; 4160; 4240; 6112; 6160; 6470; 6608; 6784;
    6800; 6992; 7088; 7232; 7248; 42528; 43216; 43264; 43472; 43504; 43600;
    44016; 65296; 66720; 68912; 69734; 69872; 69942; 70096; 70384; 70736;
    70864; 71248; 71360; 71472; 71904; 72016; 72784; 73040; 73120; 92768;
    92864; 93008; 120782; 120792; 120802; 120812; 120822; 123200; 123632;
    125264; 130032
  ]%N.

Definition upper_runs : list (code * code * code * code) :=
  [
    (97, 26, 1, 65); (181, 1, 1, 924); (224, 23, 1, 192); (248, 7, 1, 216);
    (255, 1, 1, 376); (257, 24, 2, 256); (305, 1, 1, 73); (307, 3, 2, 306);
    (314, 8, 2, 313); (331, 23, 2, 330); (378, 3, 2, 377); (383, 1, 1, 83);
    (384, 1, 1, 579); (387, 2, 2, 386); (392, 1, 1, 391); (396, 1, 1, 395);
    (402, 1, 1, 401); (405, 1, 1, 502); (409, 1, 1, 408); (410, 1, 1, 573);
    (414, 1, 1, 544); (417, 3, 2, 416); (424, 1, 1, 423); (429, 1, 1, 428);
    (432, 1, 1, 431); (436, 2, 2, 435); (441, 1, 1, 440); (445, 1, 1, 444);
    (447, 1, 1, 503); (453, 1, 1, 452); (454, 1, 1, 452); (456, 1, 1, 455);
    (457, 1, 1, 455); (459, 1, 1, 458); (460, 1, 1, 458); (462, 8, 2, 461);
    (477, 1, 1, 398); (479, 9, 2, 478); (498, 1, 1, 497); (499, 1, 1, 497);
    (501, 1, 1, 500); (505, 20, 2, 504); (547, 9, 2, 546);
    (572, 1, 1, 571); (575, 2, 1, 11390); (578, 1, 1, 577);
    (583, 5, 2, 582); (592, 1, 1, 11375); (593, 1, 1, 11373);
    (594, 1, 1, 11376); (595, 1, 1, 385); (596, 1, 1, 390);
    (598, 2, 1, 393); (601, 1, 1, 399); (603, 1, 1, 400);
    (604, 1, 1, 42923); (608, 1, 1, 403); (609, 1, 1, 42924);
    (611, 1, 1, 404); (613, 1, 1, 42893); (614, 1, 1, 42922);
    (616, 1, 1, 407); (617, 1, 1, 406); (618, 1, 1, 42926);
    (619, 1, 1, 11362); (620, 1, 1, 42925); (623, 1, 1, 412);
    (625, 1, 1, 11374); (626, 1, 1, 413); (629, 1, 1, 415);
    (637, 1, 1, 11364); (640, 1, 1, 422); (642, 1, 1, 42949);
    (643, 1, 1, 425); (647, 1, 1, 42929); (648, 1, 1, 430);
    (649, 1, 1, 580); (650, 2, 1, 433); (652, 1, 1, 581); (658, 1, 1, 439);
    (669, 1, 1, 42930); (670, 1, 1, 42928); (837, 1, 1, 921);
    (881, 2, 2, 880); (887, 1, 1, 886); (891, 3, 1, 1021);
    (940, 1, 1, 902); (941, 3, 1, 904); (945, 17, 1, 913);
    (962, 1, 1, 931); (963, 9, 1, 931); (972, 1, 1, 908); (973, 2, 1, 910);
    (976, 1, 1, 914); (977, 1, 1, 920); (981, 1, 1, 934); (982, 1, 1, 928);
    (983, 1, 1, 975); (985, 12, 2, 984); (1008, 1, 1, 922);
    (1009, 1, 1, 929); (1010, 1, 1, 1017); (1011, 1, 1, 895);
    (1013, 1, 1, 917); (1016, 1, 1, 1015); (1019, 1, 1, 1018);
    (1072, 32, 1, 1040); (1104, 16, 1, 1024); (1121, 17, 2, 1120);
    (1163, 27, 2, 1162); (1218, 7, 2, 1217); (1231, 1, 1, 1216);
    (1233, 48, 2, 1232); (1377, 38, 1, 1329); (4304, 43, 1, 7312);
    (4349, 3, 1, 7357); (5112, 6, 1, 5104); (7296, 1, 1, 1042);
    (7297, 1, 1, 1044); (7298, 1, 1, 1054); (7299, 2, 1, 1057);
    (7301, 1, 1, 1058); (7302, 1, 1, 1066); (7303, 1, 1, 1122);
    (7304, 1, 1, 42570); (7545, 1, 1, 42877); (7549, 1, 1, 11363);
    (7566, 1, 1, 42950); (7681, 75, 2, 7680); (7835, 1, 1, 7776);
    (7841, 48, 2, 7840); (7936, 8, 1, 7944); (7952, 6, 1, 7960);
    (7968, 8, 1, 7976); (7984, 8, 1, 7992); (8000, 6, 1, 8008);
    (8017, 4, 2, 8025); (8032, 8, 1, 8040); (8048, 2, 1, 8122);
    (8050, 4, 1, 8136); (8054, 2, 1, 8154); (8056, 2, 1, 8184);
    (8058, 2, 1, 8170); (8060, 2, 1, 8186); (8112, 2, 1, 8120);
    (8126, 1, 1, 921); (8144, 2, 1, 8152); (8160, 2, 1, 8168);
    (8165, 1, 1, 8172); (8526, 1, 1, 8498); (8560, 16, 1, 8544);
    (8580, 1, 1, 8579); (9424, 26, 1, 9398); (11312, 48, 1, 11264);
    (11361, 1, 1, 11360); (11365, 1, 1, 570); (11366, 1, 1, 574);
    (11368, 3, 2, 11367); (11379, 1, 1, 11378); (11382, 1, 1, 11381);
    (11393, 50, 2, 11392); (11500, 2, 2, 11499); (11507, 1, 1, 11506);
    (11520, 38, 1, 4256); (11559, 1, 1, 4295); (11565, 1, 1, 4301);
    (42561, 23, 2, 42560); (42625, 14, 2, 42624); (42787, 7, 2, 42786);
    (42803, 31, 2, 42802); (42874, 2, 2, 42873); (42879, 5, 2, 42878);
    (42892, 1, 1, 42891); (42897, 2, 2, 42896); (42900, 1, 1, 42948);
    (42903, 10, 2, 42902); (42933, 8, 2, 42932); (42952, 2, 2, 42951);
    (42961, 1, 1, 42960); (42967, 2, 2, 42966); (42998, 1, 1, 42997);
    (43859, 1, 1, 42931); (43888, 80, 1, 5024); (65345, 26, 1, 65313);
    (66600, 40, 1, 66560); (66776, 36, 1, 66736); (66967, 11, 1, 66928);
    (66979, 15, 1, 66940); (66995, 7, 1, 66956); (67003, 2, 1, 66964);
    (68800, 51, 1, 68736); (71872, 32, 1, 71840); (93792, 32, 1, 93760);
    (125218, 34, 1, 125184)
  ]%N.

Definition upper_special : list (code * str) :=
  [
    (223, [83; 83]); (329, [700; 78]); (496, [74; 780]);
    (912, [921; 776; 769]); (944, [933; 776; 769]); (1415, [1333; 1362]);
    (7830, [72; 817]); (7831, [84; 776]); (7832, [87; 778]);
    (7833, [89; 778]); (7834, [65; 702]); (8016, [933; 787]);
    (8018, [933; 787; 768]); (8020, [933; 787; 769]);
    (8022, [933; 787; 834]); (8064, [7944; 921]); (8065, [7945; 921]);
    (8066, [7946; 921]); (8067, [7947; 921]); (8068, [7948; 921]);
    (8069, [7949; 921]); (8070, [7950; 921]); (8071, [7951; 921]);
    (8072, [7944; 921]); (8073, [7945; 921]); (8074, [7946; 921]);
    (8075, [7947; 921]); (8076, [7948; 921]); (8077, [7949; 921]);
    (8078, [7950; 921]); (8079, [7951; 921]); (8080, [7976; 921]);
    (8081, [7977; 921]); (8082, [7978; 921]); (8083, [7979; 921]);
    (8084, [7980; 921]); (8085, [7981; 921]); (8086, [7982; 921]);
    (8087, [7983; 921]); (8088, [7976; 921]); (8089, [7977; 921]);
    (8090, [7978; 921]); (8091, [7979; 921]); (8092, [7980; 921]);
    (8093, [7981; 921]); (8094, [7982; 921]); (8095, [7983; 921]);
    (8096, [8040; 921]); (8097, [8041; 921]); (8098, [8042; 921]);
    (8099, [8043; 921]); (8100, [8044; 921]); (8101, [8045; 921]);
    (8102, [8046; 921]); (8103, [8047; 921]); (8104, [8040; 921]);
    (8105, [8041; 921]); (8106, [8042; 921]); (8107, [8043; 921]);
    (8108, [8044; 921]); (8109, [8045; 921]); (8110, [8046; 921]);
    (8111, [8047; 921]); (8114, [8122; 921]); (8115, [913; 921]);
    (8116, [902; 921]); (8118, [913; 834]); (8119, [913; 834; 921]);
    (8124, [913; 921]); (8130, [8138; 921]); (8131, [919; 921]);
    (8132, [905; 921]); (8134, [919; 834]); (8135, [919; 834; 921]);
    (8140, [919; 921]); (8146, [921; 776; 768]); (8147, [921; 776; 769]);
    (8150, [921; 834]); (8151, [921; 776; 834]); (8162, [933; 776; 768]);
    (8163, [933; 776; 769]); (8164, [929; 787]); (8166, [933; 834]);
    (8167, [933; 776; 834]); (8178, [8186; 921]); (8179, [937; 921]);
    (8180, [911; 921]); (8182, [937; 834]); (8183, [937; 834; 921]);
    (8188, [937; 921]); (64256, [70; 70]); (64257, [70; 73]);
    (64258, [70; 76]); (64259, [70; 70; 73]); (64260, [70; 70; 76]);
    (64261, [83; 84]); (64262, [83; 84]); (64275, [1348; 1350]);
    (64276, [1348; 1333]); (64277, [1348; 1339]); (64278, [1358; 1350]);
    (64279, [1348; 1341])
  ]%N.

Definition table_todecimal (c : code) : option Z :=
  match find (fun z => (z <=? c) && (c <? z + 10))%N decimal_zeros with
  | Some z => Some (Z.of_N (c - z))
  | None => None
  end.

Definition in_run (c : code) (r : code * code * code * code) : bool :=
  let '(first, count, stride, _) := r in
  ((first <=? c) && (c <? first + count * stride)
   && ((c - first) mod stride =? 0))%N.

Definition table_upper (c : code) : str :=
  match find (fun e => (fst e =? c)%N) upper_special with
  | Some (_, image) => image
  | None =>
      match find (in_run c) upper_runs with
      | Some (first, _, _, image) => [(image + (c - first))%N]
      | None => [c]
      end
  end.

(** ** A world without network

    A second instance of [Services], for running the pipeline: a document is
    given by the text of its pages, the geocoding service does not answer,
    and numbers are integers with no fractional part. *)
#[export] Instance offline : Services := {|
  float := Z;
  world := unit;
  path := list str;
  f_of_int z := z;
  float_lit _ := 0;
  f_neg := Z.opp;
  f_add := Z.add;
  f_sub := Z.sub;
  f_mul := Z.mul;
  f_div := Z.div;
  f_pow x n := Some (x ^ n);
  f_leb := Z.leb;
  f_eqb := Z.eqb;
  math_radians x := x;
  math_sin _ := Some 0;
  math_cos _ := Some 1;
  math_sqrt x := if x <? 0 then None else Some (Z.sqrt x);
  math_atan2 _ _ := 0;
  float_of_str _ := None;
  fmt_f _ := str_of_int;
  float_str := str_of_int;
  HAS_PYMUPDF := true;
  fitz_text pages w := (Some pages, w);
  locationiq_search _ w := (None, w);
  locationiq_reverse _ _ w := (None, w);
  random_uniform lo _ w := (lo, w);
  f_eqb_zero := eq_refl
|}.

Unset Implicit Arguments.

(** * Specification

    The definitions the statements below are written with. *)

Section Specification.
Context {RT : PyRuntime} {SV : Services}.

(** ** The score

    The weights of the four checks, clamped to [0, 100]. *)
Definition b2z (b : bool) : Z := if b then 1 else 0.

Definition clamp (z : Z) : Z := Z.max 0 (Z.min z 100).

Definition weighted (r : VerificationResult) : Z :=
  30 * b2z (is_valid_source r) + 30 * b2z (date_match r)
  + 20 * b2z (time_match r) + 20 * b2z (location_match r).

(** The exception is one the distance computation raises. *)
Definition distance_raises (e : exn) : Prop :=
  exists a b c d, calculate_distance_km a b c d = Raise e.

(** A computation returns a value that satisfies [P], or raises what the
    distance computation raised. *)
Definition outcome {A : Type} (P : A -> Prop) (x : res A * world) : Prop :=
  match x with
  | (Ok a, _) => P a
  | (Raise e, _) => distance_raises e
  end.

(** ** The source detector, in the words of the specification

    Count the primary patterns that occur; two or more give the primary
    label; else any secondary pattern gives the secondary label; else a
    single primary pattern gives the primary label; else nothing. *)
Definition primary_hits (text : str) : Z :=
  Z.of_nat (length (filter (fun p => search_i p text) najm_patterns)).

Definition secondary_hit (text : str) : bool :=
  existsb (fun p => search_i p text) traffic_patterns.

Definition detect_source_spec (text : str) : bool * str :=
  if 2 <=? primary_hits text then (true, u "نجم")
  else if secondary_hit text then (true, u "المرور")
  else if primary_hits text =? 1 then (true, u "نجم")
  else (false, []).


(** ** The formats asked of the user: [YYYY-MM-DD] and [HH:MM] *)

Definition is_ascii_digit (c : code) : bool := ((48 <=? c) && (c <=? 57))%N.

Definition is_YYYY_MM_DD (s : str) : bool :=
  match s with
  | [y1; y2; y3; y4; d1; m1; m2; d2; a1; a2] =>
      forallb is_ascii_digit [y1; y2; y3; y4; m1; m2; a1; a2]
      && (d1 =? 45)%N && (d2 =? 45)%N
  | _ => false
  end.

Definition is_HH_MM (s : str) : bool :=
  match s with
  | [h1; h2; c; m1; m2] =>
      forallb is_ascii_digit [h1; h2; m1; m2] && (c =? 58)%N
  | _ => false
  end.


(** ** National-address tokens

    Four letters and four digits, as the address pattern reads them. *)
Definition address_token (t : str) : bool :=
  match t with
  | [a; b; c; d; e; f; g; h] =>
      iletter a && iletter b && iletter c && iletter d
      && is_decimal e && is_decimal f && is_decimal g && is_decimal h
  | _ => false
  end.

(** A token starts at position [i] of the text. *)
Definition token_at (text : str) (i : nat) : Prop :=
  address_token (firstn 8 (skipn i text)) = true.

(** The leftmost token of the text. *)
Fixpoint first_token (text : str) : option str :=
  if address_token (firstn 8 text) then Some (firstn 8 text)
  else match text with
       | [] => None
       | _ :: text' => first_token text'
       end.

(** ** What a match means

    [rmatches r s g s' g']: [r] matches a prefix of [s], leaves [s'] and
    turns the groups [g] into [g']. *)
Definition all_in (p : code -> bool) (w : str) : Prop :=
  Forall (fun c => p c = true) w.

Definition within (n lo : nat) (hi : option nat) : Prop :=
  (lo <= n)%nat /\ forall h, hi = Some h -> (n <= Nat.max lo h)%nat.

Inductive rmatches : regex -> str -> groups -> str -> groups -> Prop :=
| m_eps s g : rmatches Eps s g s g
| m_one p c s g : p c = true -> rmatches (One p) (c :: s) g s g
| m_cat r1 r2 s g s1 g1 s2 g2 :
    rmatches r1 s g s1 g1 -> rmatches r2 s1 g1 s2 g2 ->
    rmatches (Cat r1 r2) s g s2 g2
| m_alt_l r1 r2 s g s' g' :
    rmatches r1 s g s' g' -> rmatches (Alt r1 r2) s g s' g'
| m_alt_r r1 r2 s g s' g' :
    rmatches r2 s g s' g' -> rmatches (Alt r1 r2) s g s' g'
| m_opt_some r s g s' g' :
    rmatches r s g s' g' -> rmatches (Opt r) s g s' g'
| m_opt_none r s g : rmatches (Opt r) s g s g
| m_rep lz lo hi p w s g :
    all_in p w -> within (length w) lo hi ->
    rmatches (Rep lz lo hi p) (w ++ s) g s g
| m_grp n r s g s' g' :
    rmatches r s g s' g' ->
    rmatches (Grp n r) s g s' ((n, firstn (length s - length s') s) :: g').

Fixpoint has_group (r : regex) : bool :=
  match r with
  | Eps | One _ | Rep _ _ _ _ => false
  | Cat r1 r2 | Alt r1 r2 => has_group r1 || has_group r2
  | Opt r1 => has_group r1
  | Grp _ _ => true
  end.

Definition all_digits (w : str) : Prop :=
  Forall (fun c => is_decimal c = true) w.

(** Group [n] holds between [lo] and [hi] decimal digits. *)
Definition digit_group (g : groups) (n lo hi : nat) : Prop :=
  exists w, group g n = Some w /\ all_digits w /\ (lo <= length w <= hi)%nat.

(** Group [n] took part in the match. *)
Definition present (g : groups) (n : nat) : Prop :=
  exists w, group g n = Some w.

End Specification.

(** ** Checks of the tables *)

Definition codes_below (n : N) : list code :=
  map N.of_nat (seq 0 (N.to_nat n)).

Definition same_digit (c : code) : bool :=
  match table_todecimal c, ascii_digit c with
  | Some a, Some b => a =? b
  | None, None => true
  | _, _ => false
  end.

Definition space_not_digit (c : code) : bool :=
  negb (uni_isspace c)
  || match table_todecimal c with Some _ => false | None => true end.

(** * Proofs *)

(** ** The tables of CPython 3.11 obey the laws of [PyRuntime] *)

Lemma codes_below_spec (n : N) (c : code) :
  (c < n)%N -> In c (codes_below n).
Proof.
  intros H. unfold codes_below. apply in_map_iff.
  exists (N.to_nat c). split; [apply N2Nat.id|].
  apply in_seq. lia.
Qed.

Lemma table_todecimal_ascii (c : code) :
  (c < 127)%N -> table_todecimal c = ascii_digit c.
Proof.
  intros H.
  assert (A : forallb same_digit (codes_below 127) = true)
    by (vm_compute; reflexivity).
  rewrite forallb_forall in A.
  specialize (A c (codes_below_spec 127 c H)).
  unfold same_digit in A.
  destruct (table_todecimal c), (ascii_digit c); try discriminate; auto.
  apply Z.eqb_eq in A. now subst.
Qed.

Lemma uni_isspace_bound (c : code) :
  uni_isspace c = true -> (c < 12289)%N.
Proof.
  unfold uni_isspace. intros H.
  repeat (apply orb_true_iff in H; destruct H as [H|H]);
    repeat (apply andb_true_iff in H; destruct H as [? H]);
    repeat match goal with
           | E : (_ =? _)%N = true |- _ => apply N.eqb_eq in E
           | E : (_ <=? _)%N = true |- _ => apply N.leb_le in E
           end; lia.
Qed.

Lemma table_todecimal_space (c : code) :
  uni_isspace c = true -> table_todecimal c = None.
Proof.
  intros H.
  assert (A : forallb space_not_digit (codes_below 12289) = true)
    by (vm_compute; reflexivity).
  rewrite forallb_forall in A.
  specialize (A c (codes_below_spec 12289 c (uni_isspace_bound c H))).
  unfold space_not_digit in A. rewrite H in A. simpl in A.
  destruct (table_todecimal c); [discriminate|reflexivity].
Qed.

#[export] Instance cpython311 : PyRuntime := {|
  uni_todecimal := table_todecimal;
  uni_upper := table_upper;
  int_max_str_digits := 4300;
  todecimal_ascii := table_todecimal_ascii;
  todecimal_space := table_todecimal_space;
  max_str_digits_range := or_intror (proj1 (Z.leb_le 640 4300) eq_refl)
|}.

(** ** [int] on the digits a pattern matched *)

Section IntOfDigits.
Context {RT : PyRuntime}.

Lemma decimal_int_digit (c : code) :
  is_decimal c = true -> exists d, int_digit c = Some d.
Proof.
  unfold is_decimal, int_digit. intros H.
  destruct (c <? 127)%N eqn:E.
  - apply N.ltb_lt in E. rewrite <- (todecimal_ascii c E).
    destruct (uni_todecimal c); [eauto|discriminate].
  - destruct (uni_todecimal c); [eauto|discriminate].
Qed.

Lemma decimal_not_blank (c : code) :
  is_decimal c = true -> int_blank c = false.
Proof.
  unfold is_decimal, int_blank. intros H.
  destruct (uni_isspace c) eqn:S.
  - rewrite (todecimal_space c S) in H. discriminate.
  - destruct (c <? 127)%N eqn:E.
    + apply N.ltb_lt in E. rewrite (todecimal_ascii c E) in H.
      unfold ascii_digit in H.
      destruct ((48 <=? c) && (c <=? 57))%N eqn:D; [|discriminate].
      apply andb_true_iff in D. destruct D as [D1 D2].
      apply N.leb_le in D1. apply N.leb_le in D2.
      rewrite andb_false_r, orb_false_r.
      apply orb_false_iff. split.
      * apply andb_false_iff. right. apply N.leb_gt. lia.
      * apply N.eqb_neq. lia.
    + apply N.ltb_ge in E. rewrite andb_false_r, orb_false_r.
      apply orb_false_iff. split.
      * apply andb_false_iff. right. apply N.leb_gt. lia.
      * apply N.eqb_neq. lia.
Qed.

Lemma decimal_not_mark (c : code) :
  is_decimal c = true ->
  (c =? 95)%N = false /\ (c =? 43)%N = false /\ (c =? 45)%N = false.
Proof.
  unfold is_decimal. intros H.
  destruct (c <? 127)%N eqn:E.
  - apply N.ltb_lt in E. rewrite (todecimal_ascii c E) in H.
    unfold ascii_digit in H.
    destruct ((48 <=? c) && (c <=? 57))%N eqn:D; [|discriminate].
    apply andb_true_iff in D. destruct D as [D1 D2].
    apply N.leb_le in D1. apply N.leb_le in D2.
    repeat split; apply N.eqb_neq; lia.
  - apply N.ltb_ge in E. repeat split; apply N.eqb_neq; lia.
Qed.

Lemma scan_all_digits (w : str) :
  all_digits w ->
  forall acc n, exists v,
    scan_digits acc n false w = Some (v, (n + length w)%nat, []).
Proof.
  induction 1 as [|c w Hc Hw IH]; intros acc n; simpl.
  - exists acc. now rewrite Nat.add_0_r.
  - destruct (decimal_int_digit c Hc) as [d ->].
    destruct (IH (acc * 10 + d) (S n)) as [v E].
    exists v. rewrite E. f_equal. f_equal. f_equal. lia.
Qed.

(** [int] does not raise on one to 640 decimal digits. *)
Lemma py_int_digits (w : str) :
  all_digits w -> (1 <= length w <= 640)%nat -> exists z, py_int w = Some z.
Proof.
  intros Hw Hl. destruct w as [|c w]; [simpl in Hl; lia|].
  pose proof (Forall_inv Hw) as Hc. cbv beta in Hc.
  unfold py_int. simpl skip_blanks. rewrite (decimal_not_blank c Hc).
  destruct (decimal_not_mark c Hc) as (M1 & M2 & M3). rewrite M2, M3.
  unfold int_unsigned. rewrite M1.
  destruct (scan_all_digits (c :: w) Hw 0 0%nat) as [v E]. rewrite E.
  simpl length. simpl Nat.add. simpl Nat.eqb.
  assert (L : over_limit (S (length w)) = false).
  { unfold over_limit. simpl length in Hl.
    destruct max_str_digits_range as [Z0|Z640].
    - rewrite Z0. reflexivity.
    - apply andb_false_iff. right. apply Z.ltb_ge. lia. }
  rewrite L. simpl. eauto.
Qed.

End IntOfDigits.

(** ** The matcher only returns matches *)

Lemma rep_sound (R : Type) (lz : bool) (p : code -> bool)
    (k : str -> option R) (x : R) (s : str) :
  forall lo hi, rep lz p lo hi k s = Some x ->
  exists w s', s = w ++ s' /\ all_in p w /\ within (length w) lo hi
               /\ k s' = Some x.
Proof.
  assert (stop : forall s0 hi, k s0 = Some x ->
            exists w s', s0 = w ++ s' /\ all_in p w
                         /\ within (length w) 0 hi /\ k s' = Some x).
  { intros s0 hi H. exists [], s0. repeat split; auto; try constructor.
    simpl. intros. lia. }
  assert (more : forall c w s0 s' lo hi, p c = true ->
            s0 = w ++ s' -> all_in p w -> within (length w) (pred lo) (dec hi) ->
            (lo = 0%nat -> hi <> Some 0%nat) ->
            c :: s0 = (c :: w) ++ s' /\ all_in p (c :: w)
            /\ within (length (c :: w)) lo hi).
  { intros c w s0 s' lo hi Hc -> Hw [B1 B2] Hz. repeat split.
    - constructor; auto.
    - simpl. lia.
    - intros h ->. simpl in B2. specialize (B2 (pred h) eq_refl). simpl.
      destruct lo; [|lia]. destruct h; [now elim Hz|]. simpl in *. lia. }
  induction s as [|c s IH]; intros lo hi H.
  - destruct lo; simpl in H; [|discriminate].
    destruct hi as [[|h]|]; apply stop; assumption.
  - destruct lo as [|lo].
    + simpl in H.
      destruct hi as [[|h]|]; [apply stop; assumption| |];
        (destruct (p c) eqn:Hc; [|apply stop; assumption]);
        destruct lz.
      * destruct (k (c :: s)) eqn:K; [apply stop; congruence|].
        apply IH in H. destruct H as (w & s' & E & Hw & B & Kx).
        exists (c :: w), s'.
        destruct (more c w s s' 0%nat (Some (S h)) Hc E Hw B) as (? & ? & ?);
          [discriminate|auto].
      * destruct (rep false p 0 (dec (Some (S h))) k s) eqn:K.
        -- injection H as ->.
           apply IH in K. destruct K as (w & s' & E & Hw & B & Kx).
           exists (c :: w), s'.
           destruct (more c w s s' 0%nat (Some (S h)) Hc E Hw B) as (? & ? & ?);
             [discriminate|auto].
        -- apply stop; assumption.
      * destruct (k (c :: s)) eqn:K; [apply stop; congruence|].
        apply IH in H. destruct H as (w & s' & E & Hw & B & Kx).
        exists (c :: w), s'.
        destruct (more c w s s' 0%nat None Hc E Hw B) as (? & ? & ?);
          [discriminate|auto].
      * destruct (rep false p 0 (dec None) k s) eqn:K.
        -- injection H as ->.
           apply IH in K. destruct K as (w & s' & E & Hw & B & Kx).
           exists (c :: w), s'.
           destruct (more c w s s' 0%nat None Hc E Hw B) as (? & ? & ?);
             [discriminate|auto].
        -- apply stop; assumption.
    + simpl in H. destruct (p c) eqn:Hc; [|discriminate].
      apply IH in H. destruct H as (w & s' & E & Hw & B & Kx).
      exists (c :: w), s'.
      destruct (more c w s s' (S lo) hi Hc E Hw B) as (? & ? & ?);
        [discriminate|auto].
Qed.

Lemma rmatch_sound (R : Type) (r : regex) :
  forall s g (k : str -> groups -> option R) x,
    rmatch r s g k = Some x ->
    exists s' g', rmatches r s g s' g' /\ k s' g' = Some x.
Proof.
  induction r as [|p|r1 IH1 r2 IH2|r1 IH1 r2 IH2|r IH|lz lo hi p|n r IH];
    intros s g k x H; simpl in H.
  - exists s, g. split; [constructor|assumption].
  - destruct s as [|c s]; [discriminate|].
    destruct (p c) eqn:Hc; [|discriminate].
    exists s, g. split; [now constructor|assumption].
  - apply IH1 in H. destruct H as (s1 & g1 & M1 & H).
    apply IH2 in H. destruct H as (s2 & g2 & M2 & H).
    exists s2, g2. split; [econstructor; eassumption|assumption].
  - destruct (rmatch r1 s g k) eqn:E.
    + injection H as ->. apply IH1 in E. destruct E as (s' & g' & M & K).
      exists s', g'. split; [now apply m_alt_l|assumption].
    + apply IH2 in H. destruct H as (s' & g' & M & K).
      exists s', g'. split; [now apply m_alt_r|assumption].
  - destruct (rmatch r s g k) eqn:E.
    + injection H as ->. apply IH in E. destruct E as (s' & g' & M & K).
      exists s', g'. split; [now apply m_opt_some|assumption].
    + exists s, g. split; [apply m_opt_none|assumption].
  - apply rep_sound in H. destruct H as (w & s' & -> & Hw & B & K).
    exists s', g. split; [now constructor|assumption].
  - apply IH in H. destruct H as (s' & g' & M & K).
    eexists _, _. split; [apply m_grp; eassumption|assumption].
Qed.

Lemma re_match_sound (r : regex) (s s' : str) (g : groups) :
  re_match r s = Some (s', g) -> rmatches r s [] s' g.
Proof.
  unfold re_match. intros H. apply rmatch_sound in H.
  destruct H as (s1 & g1 & M & E). now injection E as <- <-.
Qed.

(** A match found by [re.search] starts at some suffix of the text. *)
Lemma re_search_sound (r : regex) (s : str) (g : groups) :
  re_search r s = Some g ->
  exists pre s0 s', s = pre ++ s0 /\ rmatches r s0 [] s' g.
Proof.
  induction s as [|c s IH]; simpl; intros H.
  - destruct (re_match r []) as [[s' g']|] eqn:E; [|discriminate].
    injection H as ->. exists [], [], s'. split; [reflexivity|].
    now apply re_match_sound.
  - destruct (re_match r (c :: s)) as [[s' g']|] eqn:E.
    + injection H as ->. exists [], (c :: s), s'. split; [reflexivity|].
      now apply re_match_sound.
    + apply IH in H. destruct H as (pre & s0 & s' & -> & M).
      exists (c :: pre), s0, s'. split; [reflexivity|assumption].
Qed.

(** What is matched is a prefix. *)
Lemma matches_prefix (r : regex) (s s' : str) (g g' : groups) :
  rmatches r s g s' g' -> exists w, s = w ++ s'.
Proof.
  induction 1.
  - now exists [].
  - now exists [c].
  - destruct IHrmatches1 as [w1 ->]. destruct IHrmatches2 as [w2 ->].
    exists (w1 ++ w2). now rewrite app_assoc.
  - assumption.
  - assumption.
  - assumption.
  - now exists [].
  - now exists w.
  - assumption.
Qed.

Lemma firstn_matched (w s' : str) :
  firstn (length (w ++ s') - length s') (w ++ s') = w.
Proof.
  rewrite length_app, Nat.add_sub. rewrite firstn_app, Nat.sub_diag.
  simpl. rewrite app_nil_r. apply firstn_all.
Qed.

(** A group around a repetition holds the characters it matched. *)
Lemma matches_grp_rep n lz lo hi p s g s' g' :
  rmatches (Grp n (Rep lz lo hi p)) s g s' g' ->
  exists w, s = w ++ s' /\ g' = (n, w) :: g /\ all_in p w
            /\ within (length w) lo hi.
Proof.
  intros H. inversion H; subst. 
  match goal with M : rmatches (Rep _ _ _ _) _ _ _ _ |- _ => inversion M; subst end.
  exists w. rewrite firstn_matched. auto.
Qed.

Lemma matches_grp n r s g s' g' :
  rmatches (Grp n r) s g s' g' ->
  exists w g1, s = w ++ s' /\ g' = (n, w) :: g1 /\ rmatches r s g s' g1.
Proof.
  intros H. inversion H; subst.
  match goal with M : rmatches r _ _ _ _ |- _ =>
    destruct (matches_prefix _ _ _ _ _ M) as [w ->] end.
  exists w. eexists. rewrite firstn_matched. auto.
Qed.

Lemma matches_no_group (r : regex) (s s' : str) (g g' : groups) :
  rmatches r s g s' g' -> has_group r = false -> g' = g.
Proof.
  induction 1; simpl; intros N; auto; try discriminate.
  - apply orb_false_iff in N. destruct N as [N1 N2].
    rewrite (IHrmatches2 N2). auto.
  - apply orb_false_iff in N. destruct N as [N1 N2]. auto.
  - apply orb_false_iff in N. destruct N as [N1 N2]. auto.
Qed.

(** Takes a match of a sequence apart: one hypothesis for each item, the
    groups of an item without a group left as they were. *)
Ltac split_match :=
  repeat match goal with
    | H : rmatches (Cat _ _) _ _ _ _ |- _ => inversion H; clear H; subst
    | H : rmatches Eps _ _ _ _ |- _ => inversion H; clear H; subst
    | H : rmatches (Opt (Grp _ _)) _ _ _ _ |- _ => inversion H; clear H; subst
    | H : rmatches (Grp _ (Rep _ _ _ _)) _ _ _ _ |- _ =>
        apply matches_grp_rep in H;
        let w := fresh "w" in
        destruct H as (w & ? & ? & ? & ?); subst
    | H : rmatches (Grp _ _) _ _ _ _ |- _ =>
        apply matches_grp in H;
        let w := fresh "w" in
        let M := fresh "M" in
        destruct H as (w & ? & ? & ? & M); subst;
        apply matches_no_group in M; [subst|reflexivity]
    | H : rmatches _ _ _ _ _ |- _ =>
        apply matches_no_group in H; [subst|reflexivity]
    end.


(** ** The extractors never raise *)

Section Totality.
Context {RT : PyRuntime}.

Lemma digit_group_here g n lo hi w :
  group g n = Some w ->
  all_in digit w -> within (length w) lo (Some hi) -> (lo <= hi)%nat ->
  digit_group g n lo hi.
Proof.
  intros E A [B1 B2] L. exists w. repeat split; auto.
  specialize (B2 hi eq_refl). lia.
Qed.

Lemma int_group_digits g n lo hi :
  digit_group g n lo hi -> (1 <= lo)%nat -> (hi <= 640)%nat ->
  exists z, int_group g n = Ok z.
Proof.
  intros (w & E & A & L) L1 L2. unfold int_group. rewrite E.
  destruct (py_int_digits w A) as [z ->]; [lia|eauto].
Qed.

Lemma accident_time_groups text g :
  re_search accident_time_pattern text = Some g ->
  digit_group g 1 1 2 /\ digit_group g 2 2 2.
Proof.
  intros H. apply re_search_sound in H.
  destruct H as (pre & s0 & s' & -> & M).
  unfold accident_time_pattern, digits in M. cbn [rseq fold_right] in M.
  split_match; split;
    (eapply digit_group_here; [reflexivity|eassumption|eassumption|lia]).
Qed.


Ltac digit_here :=
  eapply digit_group_here; [reflexivity|eassumption|eassumption|lia].

Lemma time_pattern_groups pattern text g :
  In pattern time_patterns -> re_search pattern text = Some g ->
  digit_group g 1 1 2 /\ (digit_group g 2 2 2 \/ group g 2 = None).
Proof.
  intros I H. apply re_search_sound in H.
  destruct H as (pre & s0 & s' & -> & M).
  unfold time_patterns in I. simpl in I.
  destruct I as [<-|[<-|[<-|[]]]];
    unfold digits in M; cbn [rseq fold_right] in M; split_match;
    (split; [digit_here|]);
    first [left; digit_here | right; reflexivity].
Qed.

Lemma time_generic_total g :
  digit_group g 1 1 2 -> digit_group g 2 2 2 \/ group g 2 = None ->
  exists t, time_generic g = Ok t.
Proof.
  intros G1 G2. unfold time_generic.
  destruct (int_group_digits g 1 1 2 G1) as [hour ->]; [lia|lia|].
  simpl rbind.
  assert (E : exists m,
             match nonempty_group g 2 with
             | Some s => match py_int s with
                         | Some z => Ok z
                         | None => Raise ValueError
                         end
             | None => Ok 0
             end = Ok m).
  { unfold nonempty_group. destruct G2 as [(w & -> & A & L)| ->]; [|eauto].
    destruct (truthy w); [|eauto].
    destruct (py_int_digits w A) as [z ->]; [lia|eauto]. }
  destruct E as [m ->]. simpl. eauto.
Qed.

Lemma time_loop_total patterns text :
  incl patterns time_patterns -> exists r, time_loop patterns text = Ok r.
Proof.
  induction patterns as [|p ps IH]; intros I; simpl; [eauto|].
  destruct (re_search p text) as [g|] eqn:E.
  - destruct (time_pattern_groups p text g (I p (or_introl eq_refl)) E)
      as [G1 G2].
    destruct (time_generic_total g G1 G2) as [t ->]. simpl. eauto.
  - apply IH. intros q Hq. apply I. now right.
Qed.

(** [extract_time_from_text] never raises. *)
Lemma extract_time_total text :
  exists r, extract_time_from_text text = Ok r.
Proof.
  unfold extract_time_from_text.
  destruct (re_search accident_time_pattern text) as [g|] eqn:E.
  - destruct (accident_time_groups text g E) as [G1 G2].
    destruct (int_group_digits g 1 1 2 G1) as [h ->]; [lia|lia|].
    destruct (int_group_digits g 2 2 2 G2) as [m ->]; [lia|lia|].
    simpl. eauto.
  - apply time_loop_total. apply incl_refl.
Qed.

(** *** Dates *)

Lemma int_group_present g n e :
  present g n -> int_group g n = Raise e -> e = ValueError.
Proof.
  intros [w E]. unfold int_group. rewrite E.
  destruct (py_int w); [discriminate|]. now intros [= <-].
Qed.

Lemma new_datetime_raises y m d e :
  new_datetime y m d = Raise e -> e = ValueError.
Proof.
  unfold new_datetime.
  destruct (_ && _); [discriminate|]. now intros [= <-].
Qed.

Lemma three_ints_raise g a b c (k : Z -> Z -> Z -> res datetime) e :
  present g a -> present g b -> present g c ->
  (forall x y z e', k x y z = Raise e' -> e' = ValueError) ->
  (x <- int_group g a ;; y <- int_group g b ;; z <- int_group g c ;; k x y z)
    = Raise e ->
  e = ValueError.
Proof.
  intros Pa Pb Pc K.
  destruct (int_group g a) eqn:Ea; simpl;
    [|intros [= <-]; now apply (int_group_present g a)].
  destruct (int_group g b) eqn:Eb; simpl;
    [|intros [= <-]; now apply (int_group_present g b)].
  destruct (int_group g c) eqn:Ec; simpl;
    [|intros [= <-]; now apply (int_group_present g c)].
  apply K.
Qed.

Lemma date_dmy_raises g e :
  present g 1 -> present g 2 -> present g 3 ->
  date_dmy g = Raise e -> e = ValueError.
Proof.
  intros P1 P2 P3. unfold date_dmy.
  apply (three_ints_raise g 1 2 3 (fun d m y => new_datetime y m d)); auto.
  intros. eapply new_datetime_raises; eauto.
Qed.

Lemma date_generic_raises g e :
  present g 1 -> present g 2 -> present g 3 ->
  date_generic g = Raise e -> e = ValueError.
Proof.
  intros P1 P2 P3. unfold date_generic, len_group.
  destruct P1 as [w E]. rewrite E. simpl rbind.
  assert (P1 : present g 1) by (exists w; auto).
  destruct (length w =? 4)%nat.
  - apply (three_ints_raise g 1 2 3 (fun y m d => new_datetime y m d)); auto.
    intros. eapply new_datetime_raises; eauto.
  - apply (three_ints_raise g 1 2 3 (fun d m y => new_datetime y m d)); auto.
    intros. eapply new_datetime_raises; eauto.
Qed.

Ltac present_here := eexists; reflexivity.

Lemma accident_date_groups text g :
  re_search accident_date_pattern text = Some g ->
  present g 1 /\ present g 2 /\ present g 3.
Proof.
  intros H. apply re_search_sound in H.
  destruct H as (pre & s0 & s' & -> & M).
  unfold accident_date_pattern, digits in M. cbn [rseq fold_right] in M.
  split_match. repeat split; present_here.
Qed.

Lemma date_pattern_groups pattern text g :
  In pattern date_patterns -> re_search pattern text = Some g ->
  present g 1 /\ present g 2 /\ present g 3.
Proof.
  intros I H. apply re_search_sound in H.
  destruct H as (pre & s0 & s' & -> & M).
  unfold date_patterns in I. simpl in I.
  destruct I as [<-|[<-|[<-|[]]]];
    unfold digits in M; cbn [rseq fold_right] in M; split_match;
    repeat split; present_here.
Qed.

Lemma date_loop_total patterns text :
  incl patterns date_patterns -> exists r, date_loop patterns text = Ok r.
Proof.
  induction patterns as [|p ps IH]; intros I; simpl; [eauto|].
  assert (I' : incl ps date_patterns) by (intros q Hq; apply I; now right).
  destruct (re_search p text) as [g|] eqn:E; [|auto].
  destruct (date_pattern_groups p text g (I p (or_introl eq_refl)) E)
    as (P1 & P2 & P3).
  destruct (date_generic g) as [d|e] eqn:D; [eauto|].
  rewrite (date_generic_raises g e P1 P2 P3 D).
  cbn [is_value_or_index_error]. auto.
Qed.

(** [extract_date_from_text] never raises. *)
Lemma extract_date_total text :
  exists r, extract_date_from_text text = Ok r.
Proof.
  unfold extract_date_from_text.
  destruct (re_search accident_date_pattern text) as [g|] eqn:E.
  - destruct (accident_date_groups text g E) as (P1 & P2 & P3).
    destruct (date_dmy g) as [d|e] eqn:D; [eauto|].
    rewrite (date_dmy_raises g e P1 P2 P3 D). cbn [is_value_error].
    apply date_loop_total, incl_refl.
  - apply date_loop_total, incl_refl.
Qed.

(** *** Locations *)

Lemma location_group text g :
  re_search location_pattern text = Some g -> present g 1.
Proof.
  intros H. apply re_search_sound in H.
  destruct H as (pre & s0 & s' & -> & M).
  unfold location_pattern in M. cbn [rseq fold_right] in M.
  split_match. present_here.
Qed.

Lemma coord_groups text g :
  re_search coord_pattern text = Some g -> present g 1 /\ present g 2.
Proof.
  intros H. apply re_search_sound in H.
  destruct H as (pre & s0 & s' & -> & M).
  unfold coord_pattern in M. cbn [rseq fold_right] in M.
  split_match. split; present_here.
Qed.

Lemma address_group text g :
  re_search address_pattern text = Some g -> present g 1.
Proof.
  intros H. apply re_search_sound in H.
  destruct H as (pre & s0 & s' & -> & M).
  unfold address_pattern in M. split_match. present_here.
Qed.

Lemma str_group_present g n :
  present g n -> exists w, str_group g n = Ok w.
Proof. intros [w E]. unfold str_group. rewrite E. eauto. Qed.

(** [extract_location_from_text] never raises. *)
Lemma extract_location_total text :
  exists r, extract_location_from_text text = Ok r.
Proof.
  unfold extract_location_from_text.
  destruct (re_search location_pattern text) as [g1|] eqn:E1;
    [destruct (str_group_present g1 1 (location_group text g1 E1)) as [w1 ->]|];
    cbn [rbind];
    (destruct (re_search coord_pattern text) as [g2|] eqn:E2;
     [destruct (coord_groups text g2 E2) as [P1 P2];
      destruct (str_group_present g2 1 P1) as [a ->];
      destruct (str_group_present g2 2 P2) as [b ->]|]);
    cbn [rbind];
    (destruct (re_search address_pattern text) as [g3|] eqn:E3;
     [destruct (str_group_present g3 1 (address_group text g3 E3)) as [w3 ->]|]);
    cbn [rbind]; eauto.
Qed.

End Totality.

(** ** The source detector *)

Lemma count_fold (f : str -> bool) (l : list str) (n : Z) :
  fold_left (fun score p => if f p then score + 1 else score) l n
  = n + Z.of_nat (length (filter f l)).
Proof.
  revert n. induction l as [|p l IH]; intros n; simpl; [lia|].
  rewrite IH. destruct (f p); simpl length; lia.
Qed.

Lemma find_existsb (f : str -> bool) (l : list str) :
  existsb f l = match find f l with Some _ => true | None => false end.
Proof.
  induction l as [|p l IH]; simpl; [reflexivity|].
  destruct (f p); simpl; auto.
Qed.


Lemma detect_report_source_eq (text : str) :
  detect_report_source text = detect_source_spec text.
Proof.
  unfold detect_report_source, detect_source_spec, secondary_hit, primary_hits.
  rewrite count_fold, find_existsb, Z.add_0_l.
  generalize
    (Z.of_nat (length (filter (fun p => search_i p text) najm_patterns))).
  intros n.
  destruct (2 <=? n) eqn:E2; [reflexivity|].
  destruct (find (fun p => search_i p text) traffic_patterns);
    [reflexivity|].
  apply Z.leb_gt in E2.
  destruct (1 <=? n) eqn:E1.
  - apply Z.leb_le in E1. replace (n =? 1) with true; [reflexivity|].
    symmetry. apply Z.eqb_eq. lia.
  - apply Z.leb_gt in E1. replace (n =? 1) with false; [reflexivity|].
    symmetry. apply Z.eqb_neq. lia.
Qed.

(** C4: for every text, [detect_report_source] returns what the
    specification's four tiers give: the primary label when two or more
    primary patterns occur; otherwise the secondary label when a secondary
    pattern occurs; otherwise the primary label when exactly one primary
    pattern occurs; otherwise [(False, "")]. *)
Theorem source_detector_tiers (text : str) :
  detect_report_source text = detect_source_spec text.
Proof. exact (detect_report_source_eq text). Qed.


(** ** The time and date comparators *)

Section Times.
Context {RT : PyRuntime}.

Lemma compare_times_parsed ext us ue tol e s en :
  minutes_of ext = Ok e -> minutes_of us = Ok s -> minutes_of ue = Ok en ->
  compare_times ext us ue tol =
    if (s - tol * 60 <=? e) && (e <=? en + tol * 60)
    then (true, u "مطابق للنطاق الزمني")
    else (false,
          u "خارج النطاق بـ "
            ++ str_of_int (Z.min (Z.abs (e - s)) (Z.abs (e - en)) / 60)
            ++ u " ساعة").
Proof.
  intros E1 E2 E3. unfold compare_times. rewrite E1, E2, E3. reflexivity.
Qed.





(** C3, amended: when the three times parse, the tolerance is not negative
    and [start - tolerance <= end] (as in every window with
    [start <= end]), a time equal to [user_start] or to [user_end] matches;
    and whenever the three times parse, a time more than the tolerance
    before [user_start] or after [user_end] does not match. *)
Theorem boundary_times_match ext us ue tol e s en :
  minutes_of ext = Ok e -> minutes_of us = Ok s -> minutes_of ue = Ok en ->
  (0 <= tol -> s - tol * 60 <= en -> e = s \/ e = en ->
   fst (compare_times ext us ue tol) = true)
  /\ (e < s - tol * 60 \/ en + tol * 60 < e ->
      fst (compare_times ext us ue tol) = false).
Proof.
  intros E1 E2 E3.
  rewrite (compare_times_parsed ext us ue tol e s en E1 E2 E3).
  split.
  - intros T W B.
    replace ((s - tol * 60 <=? e) && (e <=? en + tol * 60)) with true;
      [reflexivity|].
    symmetry. apply andb_true_iff. split; apply Z.leb_le; lia.
  - intros B.
    replace ((s - tol * 60 <=? e) && (e <=? en + tol * 60)) with false;
      [reflexivity|].
    symmetry. apply andb_false_iff.
    destruct B; [left|right]; apply Z.leb_gt; lia.
Qed.

(** C8, amended: whenever [datetime.strptime] rejects the user's date (the
    pattern of ["%Y-%m-%d"] does not match at the start, something is left
    unconverted, or the date does not exist), [compare_dates] returns
    [(False, "تعذر المقارنة")]; whenever one of the three time strings has
    no second field between colons or a first or second field that [int]
    rejects, [compare_times] returns [(False, "تعذر المقارنة")]. Both are
    total functions: no exception leaves them. *)
Theorem rejected_input_cannot_compare :
  (forall extracted user_date max_diff_days e,
     strptime_ymd user_date = Raise e ->
     compare_dates extracted user_date max_diff_days
       = (false, cannot_compare))
  /\ (forall ext us ue tol,
        (exists e, minutes_of ext = Raise e)
        \/ (exists e, minutes_of us = Raise e)
        \/ (exists e, minutes_of ue = Raise e) ->
        compare_times ext us ue tol = (false, cannot_compare)).
Proof.
  split.
  - intros extracted user_date max_diff_days e H.
    unfold compare_dates. now rewrite H.
  - intros ext us ue tol H. unfold compare_times.
    destruct (minutes_of ext) as [a|]; [|reflexivity]. simpl.
    destruct (minutes_of us) as [b|]; [|reflexivity]. simpl.
    destruct (minutes_of ue) as [c|]; [|reflexivity].
    destruct H as [[e H]|[[e H]|[e H]]]; discriminate.
Qed.

End Times.

(** ** The address token *)

Section Address.
Context {RT : PyRuntime}.

Lemma rep_done (R : Type) lz p (k : str -> option R) (s : str) :
  rep lz p 0 (Some 0%nat) k s = k s.
Proof. destruct s; reflexivity. Qed.

Lemma address_match (s : str) :
  re_match address_pattern s
  = if address_token (firstn 8 s)
    then Some (skipn 8 s, [(1%nat, firstn 8 s)])
    else None.
Proof.
  unfold re_match, address_pattern, digits, digit.
  destruct s as [|a [|b [|c [|d [|e [|f [|g [|h s]]]]]]]];
    cbn [rmatch rep dec option_map pred firstn address_token];
    repeat match goal with
      | |- context [if iletter ?x then _ else _] => destruct (iletter x)
      | |- context [if is_decimal ?x then _ else _] => destruct (is_decimal x)
      end;
    cbn [andb]; try reflexivity.
  rewrite rep_done.
  change (a :: b :: c :: d :: e :: f :: g :: h :: s)
    with ([a; b; c; d; e; f; g; h] ++ s).
  rewrite firstn_matched. reflexivity.
Qed.

Lemma address_search (text : str) :
  re_search address_pattern text
  = option_map (fun t => [(1%nat, t)]) (first_token text).
Proof.
  induction text as [|c text IH].
  - cbn [re_search first_token]. rewrite address_match.
    destruct (address_token (firstn 8 [])); reflexivity.
  - cbn [re_search first_token]. rewrite address_match.
    destruct (address_token (firstn 8 (c :: text))); [reflexivity|exact IH].
Qed.

Lemma first_token_leftmost (text : str) :
  forall i, token_at text i ->
  exists j, (j <= i)%nat /\ token_at text j
            /\ (forall k, (k < j)%nat -> ~ token_at text k)
            /\ first_token text = Some (firstn 8 (skipn j text)).
Proof.
  induction text as [|c text IH]; intros i T.
  - unfold token_at in T. rewrite skipn_nil in T. discriminate.
  - destruct (address_token (firstn 8 (c :: text))) eqn:E.
    + exists 0%nat. repeat split; [lia|exact E|lia|].
      cbn [first_token]. now rewrite E.
    + destruct i as [|i]; [unfold token_at in T; simpl skipn in T; congruence|].
      destruct (IH i T) as (j & L & Tj & Lm & F).
      exists (S j). repeat split; [lia|exact Tj| |].
      * intros [|k] Hk; [unfold token_at; simpl skipn; congruence|].
        apply Lm. lia.
      * cbn [first_token]. now rewrite E.
Qed.

(** The coordinates slot: the two numbers of the leftmost match of the
    coordinate pattern, joined by [", "]; empty when the pattern does not
    match. *)
Definition coordinates_of (text : str) : str :=
  match re_search coord_pattern text with
  | Some g =>
      match group g 1, group g 2 with
      | Some a, Some b => a ++ u ", " ++ b
      | _, _ => []
      end
  | None => []
  end.

(** When the text holds a token, the city slot is the upper-cased leftmost
    token, whatever the other patterns found, and the coordinates slot is
    what the coordinate pattern gives. *)
Lemma location_of_token (text tok : str) :
  first_token text = Some tok ->
  extract_location_from_text text = Ok (str_upper tok, coordinates_of text).
Proof.
  intros F. unfold extract_location_from_text, coordinates_of.
  rewrite address_search, F. cbn [option_map str_group group Nat.eqb].
  destruct (re_search location_pattern text) as [g1|] eqn:E1;
    [destruct (str_group_present g1 1 (location_group text g1 E1)) as [w1 ->]|];
    cbn [rbind];
    (destruct (re_search coord_pattern text) as [g2|] eqn:E2;
     [destruct (coord_groups text g2 E2) as [[a Pa] [b Pb]];
      unfold str_group; rewrite Pa, Pb|]);
    cbn [rbind]; reflexivity.
Qed.

(** C7, amended: for every text that holds a national-address token (four
    letters and four digits), the city slot of [extract_location_from_text]
    is the upper-cased form of the leftmost token of the text, whatever the
    labelled pattern and the list of cities found; the coordinates slot is
    still filled from the coordinate pattern: it holds the two numbers of
    its leftmost match joined by [", "], and is empty when the pattern does
    not match. *)
Theorem address_token_overrides (text : str) (i : nat) :
  token_at text i ->
  exists j,
    (j <= i)%nat /\ token_at text j
    /\ (forall k, (k < j)%nat -> ~ token_at text k)
    /\ extract_location_from_text text
       = Ok (str_upper (firstn 8 (skipn j text)), coordinates_of text).
Proof.
  intros T. destruct (first_token_leftmost text i T) as (j & L & Tj & Lm & F).
  exists j. repeat split; auto. now apply location_of_token.
Qed.

End Address.

(** ** [verify_report] *)

Section Verify.
Context {RT : PyRuntime} {SV : Services}.

Lemma outcome_ret {A} (P : A -> Prop) (a : A) (w : world) :
  P a -> outcome P (ret a w).
Proof. intros H. exact H. Qed.

Lemma outcome_bind {A B} (Q : A -> Prop) (P : B -> Prop)
    (m : M A) (f : A -> M B) (w : world) :
  outcome Q (m w) -> (forall a w', Q a -> outcome P (f a w')) ->
  outcome P (bind m f w).
Proof.
  unfold bind. destruct (m w) as [[a|e] w']; simpl.
  - intros Ha H. exact (H a w' Ha).
  - intros He _. exact He.
Qed.

Lemma outcome_weaken {A} (Q P : A -> Prop) (x : res A * world) :
  outcome Q x -> (forall a, Q a -> P a) -> outcome P x.
Proof. destruct x as [[a|e] w]; simpl; auto. Qed.

Lemma outcome_call {A} (f : world -> A * world) (w : world) :
  outcome (fun _ => True) (call f w).
Proof. unfold call. destruct (f w). exact I. Qed.

Lemma outcome_distance a b c d (w : world) :
  outcome (fun _ => True) (lift (calculate_distance_km a b c d) w).
Proof.
  unfold lift, outcome.
  destruct (calculate_distance_km a b c d) as [x|e] eqn:E; [exact I|].
  now exists a, b, c, d.
Qed.

Lemma bind_lift_ok {A B} (a : A) (f : A -> M B) (w : world) :
  bind (lift (Ok a)) f w = f a w.
Proof. reflexivity. Qed.

Lemma outcome_geocode (address : str) (w : world) :
  outcome (fun _ => True) (geocode_address address w).
Proof.
  unfold geocode_address.
  apply outcome_bind with (Q := fun _ => True); [apply outcome_call|].
  intros [r|] w' _; exact I.
Qed.

Lemma outcome_reverse lat lng (w : world) :
  outcome (fun _ => True) (reverse_geocode lat lng w).
Proof.
  unfold reverse_geocode.
  apply outcome_bind with (Q := fun _ => True); [apply outcome_call|].
  intros [r|] w' _; exact I.
Qed.

Lemma extract_text_returns (pdf_path : path) (w : world) :
  exists text w1, extract_text_from_pdf pdf_path w = (Ok text, w1).
Proof.
  unfold extract_text_from_pdf. destruct (negb HAS_PYMUPDF).
  - now exists [], w.
  - unfold bind, call. destruct (fitz_text pdf_path w) as [[pages|] w1];
      eexists _, _; reflexivity.
Qed.

Ltac step :=
  match goal with
  | |- outcome _ (ret _ _) => exact I
  | |- outcome _ (bind (geocode_address _) _ _) =>
      apply outcome_bind with (Q := fun _ => True);
      [apply outcome_geocode|intros [[? ?] ?] ? _]
  | |- outcome _ (bind (reverse_geocode _ _) _ _) =>
      apply outcome_bind with (Q := fun _ => True);
      [apply outcome_reverse|intros ? ? _]
  | |- outcome _ (bind (lift (calculate_distance_km _ _ _ _)) _ _) =>
      apply outcome_bind with (Q := fun _ => True);
      [apply outcome_distance|intros ? ? _]
  | |- outcome _ (bind (call _) _ _) =>
      apply outcome_bind with (Q := fun _ => True);
      [apply outcome_call|intros ? ? _]
  | |- outcome _ ((if ?b then _ else _) _) => destruct b
  | |- outcome _ ((let '(_, _) := ?x in _) _) => destruct x
  end.

Lemma outcome_compare_locations city coords address (w : world) :
  outcome (fun _ => True) (compare_locations city coords address w).
Proof.
  unfold compare_locations.
  destruct (negb (truthy city) && negb (truthy coords)); [exact I|].
  destruct (parse_coords coords) as [report_lat report_lng].
  step.
  apply outcome_bind with (Q := fun _ => True);
    [destruct (_ && _); [apply outcome_geocode|exact I]|].
  intros [[user_lat user_lng] user_location] w1 _.
  repeat step.
Qed.

Lemma demo_confidence raw d s e a (w : world) :
  outcome (fun r => confidence r = clamp (weighted r) /\ 80 <= confidence r)
          (demo_mode raw d s e a w).
Proof.
  unfold demo_mode. step.
  apply outcome_bind with (Q := fun _ => True); [repeat step|].
  intros [[location_match extracted_location] location_msg] w1 _.
  apply outcome_ret. unfold weighted. cbn.
  destruct location_match; vm_compute; split; congruence.
Qed.

Lemma verify_text_confidence text raw d s e a (w : world) :
  outcome (fun r => confidence r = clamp (weighted r)
                    /\ (is_valid_source r, source_name r)
                       = detect_report_source text)
          (verify_text text raw d s e a w).
Proof.
  unfold verify_text.
  destruct (detect_report_source text) as [is_valid name].
  destruct (extract_date_total text) as [extracted_date ->].
  rewrite bind_lift_ok.
  match goal with
  | |- context [let '(_, _) := ?x in _] => destruct x as [date_match date_msg]
  end.
  destruct (extract_time_total text) as [extracted_time ->].
  rewrite bind_lift_ok.
  match goal with
  | |- context [let '(_, _) := ?x in _] => destruct x as [time_match time_msg]
  end.
  destruct (extract_location_total text) as [[city coords] ->].
  rewrite bind_lift_ok.
  apply outcome_bind with (Q := fun _ => True).
  - destruct (truthy city || truthy coords); [|exact I].
    apply outcome_bind with (Q := fun _ => True);
      [apply outcome_compare_locations|].
    intros [loc_match loc_msg] w1 _. exact I.
  - intros [location_match location_msg] w1 _.
    apply outcome_ret. unfold weighted. cbn. split; [|reflexivity].
    destruct is_valid, date_match, time_match, location_match; reflexivity.
Qed.

(** C1: on both paths of [verify_report], with no text (demo mode) and with
    text, the confidence returned is
    [30*is_valid_source + 30*date_match + 20*time_match + 20*location_match]
    clamped to [0, 100]; the only calls that do not return a result are
    those where the distance computation raises. *)
Theorem confidence_weighted_sum (pdf_path : path)
    (user_date user_start_time user_end_time user_address : str) (w : world) :
  match verify_report pdf_path user_date user_start_time user_end_time
          user_address w with
  | (Ok r, _) => confidence r = clamp (weighted r)
  | (Raise e, _) => distance_raises e
  end.
Proof.
  change (outcome (fun r => confidence r = clamp (weighted r))
            (verify_report pdf_path user_date user_start_time user_end_time
               user_address w)).
  unfold verify_report.
  destruct (extract_text_returns pdf_path w) as (text & w1 & E).
  unfold bind at 1. rewrite E.
  destruct (negb (truthy text)).
  - eapply outcome_weaken; [apply demo_confidence|]. now intros r [H _].
  - eapply outcome_weaken; [apply verify_text_confidence|]. now intros r [H _].
Qed.


(** C9: in demo mode (no text extracted), when geocoding the user's address
    gives the [(0, 0, "")] of a failure, [location_match] is set to true
    with no distance computed and no further call to the outside, the
    confidence is 100 and the caller approves the request; and demo mode
    never returns a confidence below 80. *)
Theorem demo_geocoding_failure (pdf_path : path)
    (user_date user_start_time user_end_time user_address : str)
    (w w1 : world) :
  extract_text_from_pdf pdf_path w = (Ok [], w1) ->
  (forall w2,
     geocode_address user_address w1 = (Ok (f_of_int 0, f_of_int 0, []), w2) ->
     exists r,
       verify_report pdf_path user_date user_start_time user_end_time
         user_address w = (Ok r, w2)
       /\ location_match r = true /\ confidence r = 100
       /\ decide (confidence r) = STATUS_APPROVED)
  /\ (forall r w',
        verify_report pdf_path user_date user_start_time user_end_time
          user_address w = (Ok r, w') ->
        80 <= confidence r).
Proof.
  intros E.
  assert (V : verify_report pdf_path user_date user_start_time user_end_time
                user_address w
              = demo_mode [] user_date user_start_time user_end_time
                  user_address w1)
    by (unfold verify_report, bind; rewrite E; reflexivity).
  rewrite V. split.
  - intros w2 G. unfold demo_mode. unfold bind at 1. rewrite G.
    unfold nonzero. rewrite f_eqb_zero. cbn [negb andb].
    eexists. split; [reflexivity|]. cbn. repeat split.
  - intros r w' H.
    pose proof (demo_confidence [] user_date user_start_time user_end_time
                  user_address w1) as D.
    rewrite H in D. now destruct D.
Qed.

End Verify.

(** ** Runs on CPython 3.11 *)

(** A time equal to [user_start] does not match on a window that spans
    midnight, on a negative tolerance, or when the strings do not parse. *)
Lemma boundary_time_mismatch :
  fst (compare_times (u "22:00") (u "22:00") (u "01:00") 2) = false
  /\ fst (compare_times (u "17:00") (u "17:00") (u "18:00") (-1)) = false
  /\ fst (compare_times (u "5pm") (u "5pm") (u "6pm") 2) = false.
Proof. vm_compute. auto. Qed.

Lemma boundary_times_match_witness :
  fst (compare_times (u "17:00") (u "17:00") (u "18:00") 2) = true
  /\ fst (compare_times (u "20:01") (u "17:00") (u "18:00") 2) = false.
Proof.
  destruct (@boundary_times_match cpython311 (u "17:00") (u "17:00") (u "18:00") 2
              1020 1020 1080 eq_refl eq_refl eq_refl) as [A _].
  destruct (@boundary_times_match cpython311 (u "20:01") (u "17:00") (u "18:00") 2
              1201 1020 1080 eq_refl eq_refl eq_refl) as [_ B].
  split; [apply A; lia|apply B; lia].
Defined.


(** Strings that are not in the format, and are compared all the same. *)
Lemma malformed_input_compared :
  is_HH_MM (u "17:00:59") = false
  /\ compare_times (u "17:30") (u "17:00:59") (u "18:00") 2
     = (true, u "مطابق للنطاق الزمني")
  /\ is_YYYY_MM_DD (u "2025-9-2") = false
  /\ compare_dates {| year := 2025; month := 9; day := 2 |} (u "2025-9-2") 1
     = (true, u "مطابق").
Proof. vm_compute. auto. Qed.

Lemma rejected_input_cannot_compare_witness :
  compare_dates {| year := 2025; month := 9; day := 2 |} (u "02/09/2025") 1
    = (false, cannot_compare)
  /\ compare_times (u "17:30") (u "5pm") (u "18:00") 2
     = (false, cannot_compare).
Proof.
  destruct (@rejected_input_cannot_compare cpython311) as [A B]. split.
  - apply (A _ _ _ ValueError). reflexivity.
  - apply B. right. left. exists ValueError. reflexivity.
Defined.

(** A token in lower case is not returned as it stands, and of two tokens
    only the first is returned. *)
Lemma address_token_not_returned :
  address_token (u "abcd1234") = true
  /\ extract_location_from_text (u "abcd1234") = Ok (u "ABCD1234", [])
  /\ str_eqb (u "ABCD1234") (u "abcd1234") = false
  /\ address_token (u "WXYZ5678") = true
  /\ str_contains (u "WXYZ5678") (u "ABCD1234 WXYZ5678") = true
  /\ extract_location_from_text (u "ABCD1234 WXYZ5678")
     = Ok (u "ABCD1234", []).
Proof. vm_compute. auto 10. Qed.

Lemma address_token_overrides_witness :
  extract_location_from_text
    (u "مكان الحادث: الرياض 24.7136, 46.6753 rrrd2929")
  = Ok (u "RRRD2929", u "24.7136, 46.6753").
Proof.
  destruct (@address_token_overrides cpython311
              (u "مكان الحادث: الرياض 24.7136, 46.6753 rrrd2929") 37 eq_refl)
    as (j & L & T & Lm & E).
  assert (J : j = 37%nat).
  { destruct (Nat.eq_dec j 37) as [|N]; [assumption|].
    exfalso. assert (B : (j < 37)%nat) by lia. clear - B T.
    do 37 (destruct j as [|j]; [vm_compute in T; discriminate|]). lia. }
  subst j. rewrite E. reflexivity.
Defined.


Lemma demo_geocoding_failure_witness :
  exists r,
    @verify_report cpython311 offline [] (u "2025-09-02") (u "17:00")
      (u "18:00") (u "RRRD2929") tt = (Ok r, tt)
    /\ location_match r = true /\ confidence r = 100
    /\ decide (confidence r) = STATUS_APPROVED.
Proof.
  destruct (@demo_geocoding_failure cpython311 offline [] (u "2025-09-02")
              (u "17:00") (u "18:00") (u "RRRD2929") tt tt eq_refl)
    as [A _].
  exact (A tt eq_refl).
Defined.

(** C10: there is a text on which [extract_time_from_text] returns an hour
    above 23: in ["17:34 م"] the hour is already on the 24-hour clock, the
    marker after it adds 12, and the result is ["29:34"]. *)
Theorem hour_above_23 :
  exists text hour minute,
    text = u "17:34 م"
    /\ extract_time_from_text text = Ok (Some (hhmm hour minute))
    /\ hhmm hour minute = u "29:34"
    /\ 23 < hour.
Proof.
  exists (u "17:34 م"), 29, 34. repeat split.
Qed.

(** C6: the specification constrains the labelled pattern to the list of
    cities; the code does not. The pattern holds the letters of the ten
    names in one bracket expression, so on a line that names a district it
    captures the single letter ["ي"], which the extractor returns as the
    city and which is not in the list. *)
Theorem labelled_city_outside_gazetteer :
  let text := u "مكان الحادث: حي الملز" in
  option_map (fun g => group g 1) (re_search location_pattern text)
    = Some (Some (u "ي"))
  /\ extract_location_from_text text = Ok (u "ي", [])
  /\ str_in (u "ي") areas = false.
Proof. vm_compute. auto. Qed.

(** * Further properties of the verifier *)

(** A date that exists in the calendar. *)
Definition calendar_date (d : datetime) : Prop :=
  1 <= year d <= 9999 /\ 1 <= month d <= 12
  /\ 1 <= day d <= days_in_month (year d) (month d).

Section MoreExtractors.
Context {RT : PyRuntime}.

(** X1: the three extractors return on every text: the exceptions [int],
    the date constructor and the methods of a missing group could raise are
    all caught or cannot occur on what the patterns match. *)
Theorem extractors_never_raise (text : str) :
  (exists d, extract_date_from_text text = Ok d)
  /\ (exists t, extract_time_from_text text = Ok t)
  /\ (exists l, extract_location_from_text text = Ok l).
Proof.
  split; [apply extract_date_total|].
  split; [apply extract_time_total|apply extract_location_total].
Qed.

Lemma new_datetime_calendar y m d x :
  new_datetime y m d = Ok x -> calendar_date x.
Proof.
  unfold new_datetime.
  destruct ((1 <=? y) && (y <=? 9999) && (1 <=? m) && (m <=? 12)
            && (1 <=? d) && (d <=? days_in_month y m)) eqn:E;
    [|discriminate].
  intros [= <-]. unfold calendar_date. simpl.
  repeat (apply andb_true_iff in E; destruct E as [E ?]).
  repeat match goal with
         | H : (_ <=? _) = true |- _ => apply Z.leb_le in H
         end.
  lia.
Qed.

Lemma three_ints_calendar g a b c (k : Z -> Z -> Z -> res datetime) x :
  (forall p q r x', k p q r = Ok x' -> calendar_date x') ->
  (p <- int_group g a ;; q <- int_group g b ;; r <- int_group g c ;; k p q r)
    = Ok x ->
  calendar_date x.
Proof.
  intros K.
  destruct (int_group g a); simpl; [|discriminate].
  destruct (int_group g b); simpl; [|discriminate].
  destruct (int_group g c); simpl; [|discriminate].
  apply K.
Qed.

Lemma date_dmy_calendar g x : date_dmy g = Ok x -> calendar_date x.
Proof.
  unfold date_dmy.
  apply (three_ints_calendar g 1 2 3 (fun d m y => new_datetime y m d)).
  intros. eapply new_datetime_calendar; eauto.
Qed.

Lemma date_generic_calendar g x : date_generic g = Ok x -> calendar_date x.
Proof.
  unfold date_generic. destruct (len_group g 1) as [l|]; simpl; [|discriminate].
  destruct (l =? 4)%nat.
  - apply (three_ints_calendar g 1 2 3 (fun y m d => new_datetime y m d)).
    intros. eapply new_datetime_calendar; eauto.
  - apply (three_ints_calendar g 1 2 3 (fun d m y => new_datetime y m d)).
    intros. eapply new_datetime_calendar; eauto.
Qed.

Lemma date_loop_calendar patterns text x :
  date_loop patterns text = Ok (Some x) -> calendar_date x.
Proof.
  induction patterns as [|p ps IH]; simpl; [discriminate|].
  destruct (re_search p text) as [g|]; [|exact IH].
  destruct (date_generic g) as [d|e] eqn:D.
  - intros [= <-]. eapply date_generic_calendar; eauto.
  - destruct (is_value_or_index_error e); [exact IH|discriminate].
Qed.

(** X2: every date [extract_date_from_text] returns exists in the calendar:
    a match such as 31/02/2025 or 45/13/2025 is never returned as a date. *)
Theorem extracted_date_in_calendar (text : str) (d : datetime) :
  extract_date_from_text text = Ok (Some d) -> calendar_date d.
Proof.
  unfold extract_date_from_text.
  destruct (re_search accident_date_pattern text) as [g|];
    [|apply date_loop_calendar].
  destruct (date_dmy g) as [x|e] eqn:D.
  - intros [= <-]. eapply date_dmy_calendar; eauto.
  - destruct (is_value_error e); [apply date_loop_calendar|discriminate].
Qed.

(** X3: when the user's date parses, [compare_dates] matches exactly when
    the two dates are at most [max_diff_days] days apart, and the result is
    the same when the two dates change places. *)
Theorem compare_dates_window (a b : datetime) (sa sb : str) (k : Z) :
  strptime_ymd sa = Ok a -> strptime_ymd sb = Ok b ->
  (fst (compare_dates a sb k) = true
   <-> Z.abs (toordinal a - toordinal b) <= k)
  /\ fst (compare_dates a sb k) = fst (compare_dates b sa k).
Proof.
  intros Ea Eb. unfold compare_dates, days_between. rewrite Ea, Eb.
  replace (Z.abs (toordinal b - toordinal a))
    with (Z.abs (toordinal a - toordinal b)) by lia.
  destruct (Z.abs (toordinal a - toordinal b) <=? k) eqn:E; simpl.
  - apply Z.leb_le in E. repeat split; auto.
  - apply Z.leb_gt in E. repeat split; try discriminate. lia.
Qed.

(** X4: a larger tolerance never turns a match of [compare_times] into a
    mismatch. *)
Theorem tolerance_monotone ext us ue tol tol' e s en :
  minutes_of ext = Ok e -> minutes_of us = Ok s -> minutes_of ue = Ok en ->
  tol <= tol' ->
  fst (compare_times ext us ue tol) = true ->
  fst (compare_times ext us ue tol') = true.
Proof.
  intros E1 E2 E3 L.
  rewrite (compare_times_parsed ext us ue tol e s en E1 E2 E3).
  rewrite (compare_times_parsed ext us ue tol' e s en E1 E2 E3).
  destruct ((s - tol * 60 <=? e) && (e <=? en + tol * 60)) eqn:B;
    [|simpl; discriminate].
  intros _. apply andb_true_iff in B. destruct B as [B1 B2].
  apply Z.leb_le in B1. apply Z.leb_le in B2.
  replace ((s - tol' * 60 <=? e) && (e <=? en + tol' * 60)) with true;
    [reflexivity|].
  symmetry. apply andb_true_iff. split; apply Z.leb_le; lia.
Qed.

(** X7: when the labelled pattern does not match and the text holds no
    address token, the city slot is the first name of [areas] that occurs
    in the text, or empty when none does. *)
Theorem city_from_gazetteer (text : str) :
  re_search location_pattern text = None ->
  first_token text = None ->
  exists coordinates,
    extract_location_from_text text
    = Ok (match find (fun area => str_contains area text) areas with
          | Some area => area
          | None => []
          end, coordinates).
Proof.
  intros L T. unfold extract_location_from_text.
  rewrite L, address_search, T. cbn [rbind option_map truthy negb].
  destruct (re_search coord_pattern text) as [g|] eqn:E.
  - destruct (coord_groups text g E) as [P1 P2].
    destruct (str_group_present g 1 P1) as [a ->].
    destruct (str_group_present g 2 P2) as [b ->].
    cbn [rbind]. eauto.
  - cbn [rbind]. eauto.
Qed.

End MoreExtractors.

(** X5: the detector returns one of three results: the primary label, the
    secondary label, or [(False, "")]. *)
Theorem source_label_set (text : str) :
  detect_report_source text = (true, u "نجم")
  \/ detect_report_source text = (true, u "المرور")
  \/ detect_report_source text = (false, []).
Proof.
  rewrite detect_report_source_eq. unfold detect_source_spec.
  destruct (2 <=? primary_hits text); [now left|].
  destruct (secondary_hit text); [right; now left|].
  destruct (primary_hits text =? 1); [now left|right; now right].
Qed.

Lemma extracted_date_in_calendar_witness :
  exists d,
    extract_date_from_text (u "Version date: 31/02/2025 then 2025-12-15")
    = Ok (Some d)
    /\ calendar_date d /\ d = {| year := 2025; month := 12; day := 15 |}.
Proof.
  eexists. split; [vm_compute; reflexivity|]. split; [|reflexivity].
  apply (@extracted_date_in_calendar cpython311
           (u "Version date: 31/02/2025 then 2025-12-15")).
  vm_compute. reflexivity.
Defined.

Lemma compare_dates_window_witness :
  fst (compare_dates {| year := 2025; month := 9; day := 5 |}
         (u "2025-09-02") 1) = false.
Proof.
  destruct (@compare_dates_window cpython311
              {| year := 2025; month := 9; day := 5 |}
              {| year := 2025; month := 9; day := 2 |}
              (u "2025-09-05") (u "2025-09-02") 1 eq_refl eq_refl)
    as [[A _] _].
  destruct (fst (compare_dates _ _ _)); [|reflexivity].
  specialize (A eq_refl). vm_compute in A. now elim A.
Defined.

Lemma tolerance_monotone_witness :
  fst (compare_times (u "19:30") (u "17:00") (u "18:00") 3) = true.
Proof.
  apply (@tolerance_monotone cpython311 (u "19:30") (u "17:00") (u "18:00")
           2 3 1170 1020 1080 eq_refl eq_refl eq_refl); [lia|reflexivity].
Defined.

Lemma city_from_gazetteer_witness :
  exists coordinates,
    extract_location_from_text (u "وقع الحادث في جدة قرب مكة")
    = Ok (u "جدة", coordinates).
Proof.
  destruct (@city_from_gazetteer cpython311 (u "وقع الحادث في جدة قرب مكة")
              eq_refl eq_refl) as [c E].
  exists c. rewrite E. reflexivity.
Defined.

(** ** The detector does not see the case of ASCII letters *)

(** [c.upper()] on the ASCII letters, other characters left as they are. *)
Definition ascii_upper (c : code) : code :=
  if is_lower c then (c - 32)%N else c.

(** The pattern, read without case, is a prefix of the string. *)
Fixpoint iprefix (p s : str) : bool :=
  match p, s with
  | [], _ => true
  | x :: p', c :: s' => ichar x c && iprefix p' s'
  | _ :: _, [] => false
  end.

Fixpoint isearch (p s : str) : bool :=
  iprefix p s
  || match s with
     | [] => false
     | _ :: s' => isearch p s'
     end.

Lemma ichar_ascii_upper (p c : code) : ichar p (ascii_upper c) = ichar p c.
Proof.
  unfold ascii_upper. destruct (is_lower c) eqn:L; [|reflexivity].
  unfold is_lower in L. apply andb_true_iff in L. destruct L as [L1 L2].
  apply N.leb_le in L1. apply N.leb_le in L2.
  unfold ichar, is_upper, is_lower.
  destruct ((65 <=? p) && (p <=? 90))%N eqn:U;
    [|destruct ((97 <=? p) && (p <=? 122))%N eqn:W].
  - apply andb_true_iff in U. destruct U as [U1 U2].
    apply N.leb_le in U1. apply N.leb_le in U2. cbn [orb].
    destruct (N.eq_dec c (p + 32)) as [->|N1].
    + replace (p + 32 - 32)%N with p by lia.
      rewrite !N.eqb_refl. replace (p =? p + 32)%N with false
        by (symmetry; apply N.eqb_neq; lia).
      cbn. reflexivity.
    + repeat match goal with
        | |- context [(?a =? ?b)%N] =>
            replace (a =? b)%N with false by (symmetry; apply N.eqb_neq; lia)
        end.
      reflexivity.
  - apply andb_true_iff in W. destruct W as [W1 W2].
    apply N.leb_le in W1. apply N.leb_le in W2. cbn [orb].
    destruct (N.eq_dec c p) as [->|N1].
    + rewrite !N.eqb_refl. rewrite orb_true_r. reflexivity.
    + repeat match goal with
        | |- context [(?a =? ?b)%N] =>
            replace (a =? b)%N with false by (symmetry; apply N.eqb_neq; lia)
        end.
      reflexivity.
  - cbn [orb].
    apply andb_false_iff in U. apply andb_false_iff in W.
    replace (c =? p)%N with false; [replace (c - 32 =? p)%N with false|];
      [reflexivity| |];
      symmetry; apply N.eqb_neq; intros <-;
      destruct U as [U|U]; destruct W as [W|W];
      try apply N.leb_gt in U; try apply N.leb_gt in W; lia.
Qed.

Lemma iprefix_upper (p s : str) :
  iprefix p (map ascii_upper s) = iprefix p s.
Proof.
  revert s. induction p as [|x p IH]; intros [|c s]; simpl; auto.
  now rewrite ichar_ascii_upper, IH.
Qed.

Lemma isearch_upper (p s : str) :
  isearch p (map ascii_upper s) = isearch p s.
Proof.
  induction s as [|c s IH].
  - reflexivity.
  - cbn [isearch map]. rewrite IH.
    change (ascii_upper c :: map ascii_upper s)
      with (map ascii_upper (c :: s)).
    now rewrite iprefix_upper.
Qed.

Lemma lit_i_match (R : Type) (p s : str) (g : groups)
    (k : str -> groups -> option R) :
  rmatch (lit_i p) s g k
  = if iprefix p s then k (skipn (length p) s) g else None.
Proof.
  revert s. unfold lit_i, rseq.
  induction p as [|x p IH]; intros s; cbn [map fold_right rmatch].
  - destruct s; reflexivity.
  - destruct s as [|c s]; [reflexivity|]. cbn [iprefix length skipn].
    destruct (ichar x c); [apply IH|reflexivity].
Qed.

Lemma search_i_isearch (p s : str) : search_i p s = isearch p s.
Proof.
  unfold search_i. induction s as [|c s IH].
  - cbn [re_search isearch]. unfold re_match. rewrite lit_i_match.
    destruct (iprefix p []); reflexivity.
  - cbn [re_search isearch]. unfold re_match. rewrite lit_i_match.
    destruct (iprefix p (c :: s)); [reflexivity|exact IH].
Qed.

Lemma search_i_upper (p s : str) :
  search_i p (map ascii_upper s) = search_i p s.
Proof. rewrite !search_i_isearch. apply isearch_upper. Qed.

(** X6: writing the ASCII letters of the text in upper case does not change
    what the detector returns. *)
Theorem source_ignores_ascii_case (text : str) :
  detect_report_source (map ascii_upper text) = detect_report_source text.
Proof.
  rewrite !detect_report_source_eq.
  unfold detect_source_spec, primary_hits, secondary_hit.
  assert (F : forall l,
            filter (fun p => search_i p (map ascii_upper text)) l
            = filter (fun p => search_i p text) l).
  { induction l as [|p l IH]; simpl; [reflexivity|].
    now rewrite search_i_upper, IH. }
  assert (X : forall l,
            existsb (fun p => search_i p (map ascii_upper text)) l
            = existsb (fun p => search_i p text) l).
  { induction l as [|p l IH]; simpl; [reflexivity|].
    now rewrite search_i_upper, IH. }
  now rewrite F, X.
Qed.

(** ** The whole pipeline *)

(** The keys of [matches], in the order they are set. *)
Definition match_keys : list str :=
  [u "source"; u "date"; u "time"; u "location"].

Section MoreVerify.
Context {RT : PyRuntime} {SV : Services}.

Ltac walk :=
  match goal with
  | |- outcome _ (ret _ _) => exact I
  | |- outcome _ (bind (geocode_address _) _ _) =>
      apply outcome_bind with (Q := fun _ => True);
      [apply outcome_geocode|intros [[? ?] ?] ? _]
  | |- outcome _ (bind (reverse_geocode _ _) _ _) =>
      apply outcome_bind with (Q := fun _ => True);
      [apply outcome_reverse|intros ? ? _]
  | |- outcome _ (bind (lift (calculate_distance_km _ _ _ _)) _ _) =>
      apply outcome_bind with (Q := fun _ => True);
      [apply outcome_distance|intros ? ? _]
  | |- outcome _ (bind (call _) _ _) =>
      apply outcome_bind with (Q := fun _ => True);
      [apply outcome_call|intros ? ? _]
  | |- outcome _ ((if ?b then _ else _) _) => destruct b
  end.

(** What holds of both branches holds of [verify_report]. *)
Lemma verify_report_cases (P : str -> VerificationResult -> Prop)
    (pdf_path : path) (d s e a : str) (w : world) :
  (forall w1, outcome (P []) (demo_mode [] d s e a w1)) ->
  (forall text w1, text <> [] ->
     outcome (P text) (verify_text text (firstn 500 text) d s e a w1)) ->
  exists text w1,
    extract_text_from_pdf pdf_path w = (Ok text, w1)
    /\ outcome (P text) (verify_report pdf_path d s e a w).
Proof.
  intros D V. destruct (extract_text_returns pdf_path w) as (text & w1 & E).
  exists text, w1. split; [exact E|].
  unfold verify_report. unfold bind at 1. rewrite E.
  destruct text as [|c text]; cbn [truthy negb]; [apply D|].
  apply V. discriminate.
Qed.

Lemma demo_shape raw d s e a (w : world) :
  outcome (fun r => raw_text r = raw /\ map fst (matches r) = match_keys
                    /\ confidence r = clamp (weighted r))
          (demo_mode raw d s e a w).
Proof.
  unfold demo_mode. walk.
  apply outcome_bind with (Q := fun _ => True); [repeat walk|].
  intros [[location_match extracted_location] location_msg] w1 _.
  apply outcome_ret. unfold weighted. cbn.
  destruct location_match; repeat split.
Qed.

Lemma verify_text_shape text raw d s e a (w : world) :
  outcome (fun r => raw_text r = raw /\ map fst (matches r) = match_keys
                    /\ confidence r = clamp (weighted r))
          (verify_text text raw d s e a w).
Proof.
  unfold verify_text.
  destruct (detect_report_source text) as [is_valid name].
  destruct (extract_date_total text) as [extracted_date ->].
  rewrite bind_lift_ok.
  match goal with
  | |- context [let '(_, _) := ?x in _] => destruct x as [date_match date_msg]
  end.
  destruct (extract_time_total text) as [extracted_time ->].
  rewrite bind_lift_ok.
  match goal with
  | |- context [let '(_, _) := ?x in _] => destruct x as [time_match time_msg]
  end.
  destruct (extract_location_total text) as [[city coords] ->].
  rewrite bind_lift_ok.
  apply outcome_bind with (Q := fun _ => True).
  - destruct (truthy city || truthy coords); [|exact I].
    apply outcome_bind with (Q := fun _ => True);
      [apply outcome_compare_locations|].
    intros [loc_match loc_msg] w1 _. exact I.
  - intros [location_match location_msg] w1 _.
    apply outcome_ret. unfold weighted. cbn.
    split; [reflexivity|]. split; [reflexivity|].
    destruct is_valid, date_match, time_match, location_match; reflexivity.
Qed.

Lemma decide_weighted (r : VerificationResult) :
  confidence r = clamp (weighted r) ->
  (decide (confidence r) = STATUS_APPROVED
   <-> is_valid_source r = true /\ date_match r = true
       /\ time_match r = true /\ location_match r = true)
  /\ (is_valid_source r = false \/ date_match r = false ->
      decide (confidence r) = STATUS_REJECTED).
Proof.
  intros ->. unfold weighted.
  destruct (is_valid_source r), (date_match r), (time_match r),
    (location_match r); vm_compute; split;
    try (split; [intros; repeat split; congruence
                |intros (? & ? & ? & ?); congruence]);
    try (intros [?|?]; congruence).
Qed.

(** X8: the caller approves a request on its own only when the four checks
    all passed, and rejects it whenever the source or the date check
    failed, whatever the two others say. *)
Theorem approval_needs_all_checks (pdf_path : path)
    (user_date user_start_time user_end_time user_address : str) (w : world) :
  match verify_report pdf_path user_date user_start_time user_end_time
          user_address w with
  | (Ok r, _) =>
      (decide (confidence r) = STATUS_APPROVED
       <-> is_valid_source r = true /\ date_match r = true
           /\ time_match r = true /\ location_match r = true)
      /\ (is_valid_source r = false \/ date_match r = false ->
          decide (confidence r) = STATUS_REJECTED)
  | (Raise e, _) => distance_raises e
  end.
Proof.
  destruct (verify_report_cases
              (fun _ r => confidence r = clamp (weighted r))
              pdf_path user_date user_start_time user_end_time user_address w)
    as (text & w1 & _ & H).
  - intros w1. eapply outcome_weaken; [apply demo_shape|]. now intros r (_ & _ & C).
  - intros text w1 _. eapply outcome_weaken; [apply verify_text_shape|].
    now intros r (_ & _ & C).
  - unfold outcome in H.
    destruct (verify_report _ _ _ _ _ w) as [[r|e] w2]; [|exact H].
    now apply decide_weighted.
Qed.

(** X9: the result keeps the first 500 characters of the extracted text and
    no more, and its [matches] has the four keys "source", "date", "time",
    "location", in this order, on both paths. *)
Theorem result_shape (pdf_path : path)
    (user_date user_start_time user_end_time user_address : str) (w : world) :
  exists text w1,
    extract_text_from_pdf pdf_path w = (Ok text, w1)
    /\ match verify_report pdf_path user_date user_start_time user_end_time
               user_address w with
       | (Ok r, _) =>
           raw_text r = firstn 500 text
           /\ (length (raw_text r) <= 500)%nat
           /\ map fst (matches r) = match_keys
       | (Raise e, _) => distance_raises e
       end.
Proof.
  destruct (verify_report_cases
              (fun text r => raw_text r = firstn 500 text
                             /\ map fst (matches r) = match_keys)
              pdf_path user_date user_start_time user_end_time user_address w)
    as (text & w1 & E & H).
  - intros w1. eapply outcome_weaken; [apply demo_shape|].
    now intros r (A & B & _).
  - intros text w1 _. eapply outcome_weaken; [apply verify_text_shape|].
    now intros r (A & B & _).
  - exists text, w1. split; [exact E|]. unfold outcome in H.
    destruct (verify_report _ _ _ _ _ w) as [[r|e] w2]; [|exact H].
    destruct H as [A B]. repeat split; auto.
    rewrite A. apply firstn_le_length.
Qed.

(** X10: when the geocoding service answers no forward query, a report with
    a city name and no usable coordinates matches any user address:
    [compare_locations] returns true with the city alone in the message. *)
Theorem city_matches_when_geocoder_down (city coords address : str)
    (w : world) :
  (forall q w0, fst (locationiq_search q w0) = None) ->
  truthy city = true ->
  nonzero (fst (parse_coords coords)) && nonzero (snd (parse_coords coords))
    = false ->
  exists w',
    compare_locations city coords address w
    = (Ok (true, u "المدينة: " ++ city), w').
Proof.
  intros Down C Z.
  assert (G : forall a w0, exists w1,
            geocode_address a w0 = (Ok (f_of_int 0, f_of_int 0, []), w1)).
  { intros a w0. unfold geocode_address, bind, call.
    pose proof (Down (a ++ u ", Saudi Arabia, السعودية") w0) as D.
    destruct (locationiq_search _ w0) as [o w1]. simpl in D. subst o.
    now exists w1. }
  assert (N0 : nonzero (f_of_int 0) = false)
    by (unfold nonzero; now rewrite f_eqb_zero).
  unfold compare_locations. rewrite C. cbn [negb andb].
  destruct (parse_coords coords) as [report_lat report_lng].
  cbn [fst snd] in Z.
  destruct (G address w) as [w1 E1]. unfold bind at 1. rewrite E1.
  rewrite N0. cbn [negb andb].
  set (prefix := if (4 <=? length address)%nat
                 then str_upper (firstn 4 address) else address).
  destruct (G prefix w1) as [w2 E2]. unfold bind at 1. rewrite E2.
  rewrite Z, N0. cbn [andb]. now exists w2.
Qed.

End MoreVerify.

Lemma city_matches_when_geocoder_down_witness :
  @compare_locations cpython311 offline (u "جدة") [] (u "RRRD2929") tt
  = (Ok (true, u "المدينة: جدة"), tt).
Proof.
  destruct (@city_matches_when_geocoder_down cpython311 offline
              (u "جدة") [] (u "RRRD2929") tt
              (fun _ _ => eq_refl) eq_refl eq_refl) as [[] E].
  exact E.
Defined.

(** * The request store: [backend/app/models.py]

    The table [requests] is the list of its rows and the largest id ever
    given out. An instant is a number of microseconds; the column
    [download_expires_at] holds the instant its ISO string denotes. The
    clock, the source of tokens and the files are outside the module:
    [utcnow] reads the clock, [token_urlsafe] draws a token,
    [write_bytes dir name content] writes a file of a directory and returns
    its path or the text of the exception raised, [iterdir] lists a
    directory, [exception_text] is the text of an exception of the library,
    as the handlers put it in a response. *)

Class Host {SV : Services} := {
  hworld : Type;
  bytes : Type;
  utcnow : hworld -> Z * hworld;
  token_urlsafe : Z -> hworld -> str * hworld;
  Path : str -> path;
  str_of_path : path -> str;
  path_name : path -> str;
  write_bytes : str -> str -> bytes -> hworld -> (path + str) * hworld;
  iterdir : str -> hworld -> list path * hworld;
  FRONTEND_BASE_URL : str;
  exception_text : exn -> str
}.

Module Models.

Definition STATUS_PENDING : str := u "PENDING_APPROVAL".
Definition STATUS_APPROVED : str := u "APPROVED".
Definition STATUS_READY : str := u "READY".
Definition STATUS_REJECTED : str := u "REJECTED".

Record row : Type := {
  id : Z;
  user_id : str;
  national_address : str;
  street_name : option str;
  incident_date : str;
  incident_start : str;
  incident_end : str;
  report_path : str;
  status : str;
  upload_token : str;
  download_token : option str;
  download_expires_at : option Z;
  created_at : Z;
  updated_at : Z
}.

Record db : Type := {
  requests : list row;
  last_id : Z
}.

Section Store.
Context {SV : Services} {HT : Host}.

(** The database and the world around it. *)
Definition state : Type := db * hworld.

(** [init_db] on a new file. *)
Definition empty_db : db := {| requests := []; last_id := 0 |}.

Definition _now (w : hworld) : Z * hworld := utcnow w.

Definition generate_token (w : hworld) : str * hworld := token_urlsafe 24 w.

(** [UPDATE requests SET ... WHERE id = ?]. *)
Definition update_where (request_id : Z) (f : row -> row) (d : db) : db :=
  {| requests :=
       map (fun r => if id r =? request_id then f r else r) (requests d);
     last_id := last_id d |}.

(** [SELECT ... FROM requests WHERE id = ?], [fetchone()]. *)
Definition select (request_id : Z) (d : db) : option row :=
  find (fun r => id r =? request_id) (requests d).

Definition create_request (user_id national_address incident_date
    incident_start incident_end : str) (report_path : path)
    (street_name : option str) (st : state) : Z * state :=
  let '(d, w) := st in
  let '(upload_token, w) := generate_token w in
  let '(now, w) := _now w in
  let new_id := last_id d + 1 in
  let r := {| id := new_id;
              user_id := user_id;
              national_address := national_address;
              street_name := street_name;
              incident_date := incident_date;
              incident_start := incident_start;
              incident_end := incident_end;
              report_path := str_of_path report_path;
              status := STATUS_APPROVED;
              upload_token := upload_token;
              download_token := None;
              download_expires_at := None;
              created_at := now;
              updated_at := now |} in
  (new_id, ({| requests := requests d ++ [r]; last_id := new_id |}, w)).

Definition with_report_path (p : str) (now : Z) (r : row) : row :=
  {| id := id r; user_id := user_id r;
     national_address := national_address r; street_name := street_name r;
     incident_date := incident_date r; incident_start := incident_start r;
     incident_end := incident_end r; report_path := p;
     status := status r; upload_token := upload_token r;
     download_token := download_token r;
     download_expires_at := download_expires_at r;
     created_at := created_at r; updated_at := now |}.

Definition with_status (s : str) (now : Z) (r : row) : row :=
  {| id := id r; user_id := user_id r;
     national_address := national_address r; street_name := street_name r;
     incident_date := incident_date r; incident_start := incident_start r;
     incident_end := incident_end r; report_path := report_path r;
     status := s; upload_token := upload_token r;
     download_token := download_token r;
     download_expires_at := download_expires_at r;
     created_at := created_at r; updated_at := now |}.

Definition with_download (token : str) (expires_at now : Z) (r : row) : row :=
  {| id := id r; user_id := user_id r;
     national_address := national_address r; street_name := street_name r;
     incident_date := incident_date r; incident_start := incident_start r;
     incident_end := incident_end r; report_path := report_path r;
     status := status r; upload_token := upload_token r;
     download_token := Some token;
     download_expires_at := Some expires_at;
     created_at := created_at r; updated_at := now |}.

Definition update_report_path (request_id : Z) (report_path : path)
    (st : state) : state :=
  let '(d, w) := st in
  let '(now, w) := _now w in
  (update_where request_id (with_report_path (str_of_path report_path) now) d,
   w).

Definition get_request (request_id : Z) (st : state) : option row :=
  select request_id (fst st).

Definition set_status (request_id : Z) (status : str) (st : state) : state :=
  let '(d, w) := st in
  let '(now, w) := _now w in
  (update_where request_id (with_status status now) d, w).

Definition set_download_token (request_id : Z) (token : str) (expires_at : Z)
    (st : state) : state :=
  let '(d, w) := st in
  let '(now, w) := _now w in
  (update_where request_id (with_download token expires_at now) d, w).

Definition get_upload_token (request_id : Z) (st : state) : option str :=
  match select request_id (fst st) with
  | Some r => Some (upload_token r)
  | None => None
  end.

Definition token_differs (stored : option str) (token : str) : bool :=
  match stored with
  | Some t => negb (str_eqb t token)
  | None => true
  end.

Definition validate_download_token (request_id : Z) (token : str)
    (st : state) : (bool * str) * state :=
  let '(d, w) := st in
  match select request_id d with
  | None => ((false, u "Request not found."), (d, w))
  | Some r =>
      if negb (str_eqb (status r) STATUS_READY)
      then ((false, u "Video not ready."), (d, w))
      else if token_differs (download_token r) token
      then ((false, u "Invalid token."), (d, w))
      else
        match download_expires_at r with
        | Some expiry =>
            let '(now, w) := utcnow w in
            if expiry <? now
            then ((false, u "Download link expired."), (d, w))
            else ((true, []), (d, w))
        | None => ((true, []), (d, w))
        end
  end.

Definition approve_request (request_id : Z) : state -> state :=
  set_status request_id STATUS_APPROVED.

Definition reject_request (request_id : Z) : state -> state :=
  set_status request_id STATUS_REJECTED.

(** [timedelta(hours=h)] in microseconds. *)
Definition hours (h : Z) : Z := h * 3600000000.

Definition make_download_ready (request_id : Z) (hours_valid : Z)
    (st : state) : str * state :=
  let '(d, w) := st in
  let '(token, w) := generate_token w in
  let '(now, w) := utcnow w in
  let expires_at := now + hours hours_valid in
  let st := set_download_token request_id token expires_at (d, w) in
  let st := set_status request_id STATUS_READY st in
  (token, st).

End Store.
End Models.

Lemma str_eqb_eq (a b : str) : str_eqb a b = true <-> a = b.
Proof.
  revert b. induction a as [|x a IH]; intros [|y b]; simpl;
    try (split; [discriminate|discriminate]); [split; reflexivity|].
  rewrite andb_true_iff, N.eqb_eq, IH. split.
  - now intros [-> ->].
  - now intros [= -> ->].
Qed.

Lemma str_eqb_refl (a : str) : str_eqb a a = true.
Proof. now apply str_eqb_eq. Qed.

Module ModelsFacts.
Import Models.

Section Store.
Context {SV : Services} {HT : Host}.

(** The ids of the table are distinct and none is above the last one given
    out. *)
Definition wf (d : db) : Prop :=
  NoDup (map id (requests d))
  /\ (forall r, In r (requests d) -> 1 <= id r <= last_id d)
  /\ 0 <= last_id d.

Lemma select_none_fresh (d : db) (i : Z) :
  (forall r, In r (requests d) -> id r <> i) -> select i d = None.
Proof.
  unfold select. intros H.
  destruct (find (fun r => id r =? i) (requests d)) as [r|] eqn:F;
    [|reflexivity].
  apply find_some in F. destruct F as [I E]. apply Z.eqb_eq in E.
  now elim (H r I).
Qed.

Lemma find_app_fresh (l : list row) (r : row) (i : Z) :
  find (fun x => id x =? i) (l ++ [r])
  = match find (fun x => id x =? i) l with
    | Some x => Some x
    | None => if id r =? i then Some r else None
    end.
Proof.
  induction l as [|x l IH]; simpl; [reflexivity|].
  destruct (id x =? i); [reflexivity|exact IH].
Qed.

Lemma update_where_ids (i : Z) (f : row -> row) (d : db) :
  (forall r, id (f r) = id r) ->
  map id (requests (update_where i f d)) = map id (requests d).
Proof.
  intros F. unfold update_where. simpl. rewrite map_map.
  apply map_ext. intros r. destruct (id r =? i); auto.
Qed.

Lemma select_update (i j : Z) (f : row -> row) (d : db) :
  (forall r, id (f r) = id r) ->
  select j (update_where i f d)
  = if j =? i then option_map f (select j d) else select j d.
Proof.
  intros F. unfold select, update_where. simpl.
  induction (requests d) as [|x l IH]; simpl.
  - destruct (j =? i); reflexivity.
  - destruct (id x =? i) eqn:E.
    + rewrite F. apply Z.eqb_eq in E.
      destruct (id x =? j) eqn:E'.
      * apply Z.eqb_eq in E'. replace (j =? i) with true; [reflexivity|].
        symmetry. apply Z.eqb_eq. lia.
      * exact IH.
    + destruct (id x =? j) eqn:E'; [|exact IH].
      apply Z.eqb_eq in E'. apply Z.eqb_neq in E.
      replace (j =? i) with false; [reflexivity|].
      symmetry. apply Z.eqb_neq. lia.
Qed.

Lemma update_where_absent (i : Z) (f : row -> row) (d : db) :
  select i d = None -> update_where i f d = d.
Proof.
  unfold select, update_where. destruct d as [l n]. simpl. intros H.
  f_equal. induction l as [|x l IH]; simpl in *; [reflexivity|].
  destruct (id x =? i); [discriminate|]. now rewrite IH.
Qed.

Lemma NoDup_snoc (l : list Z) (x : Z) :
  NoDup l -> ~ In x l -> NoDup (l ++ [x]).
Proof.
  induction 1 as [|y l Hy N IH]; intros H; simpl.
  - constructor; [intros []|constructor].
  - constructor.
    + intros I. apply in_app_or in I. destruct I as [I|[->|[]]]; auto.
      apply H. now left.
    + apply IH. intros I. apply H. now right.
Qed.

Lemma create_request_wf a b c e f p s (d : db) (w : hworld) :
  wf d -> wf (fst (snd (create_request a b c e f p s (d, w)))).
Proof.
  intros (N & B & L). unfold create_request, generate_token, _now.
  destruct (token_urlsafe 24 w) as [t w1]. destruct (utcnow w1) as [now w2].
  cbn [snd fst]. unfold wf. cbn [requests last_id].
  split; [|split].
  - rewrite map_app. cbn [map id]. apply NoDup_snoc; [exact N|].
    intros I. apply in_map_iff in I. destruct I as (r & E & I).
    specialize (B r I). lia.
  - intros r I. apply in_app_or in I.
    destruct I as [I|[<-|[]]]; [specialize (B r I); lia|simpl; lia].
  - lia.
Qed.

Lemma update_where_wf (i : Z) (f : row -> row) (d : db) :
  (forall r, id (f r) = id r) -> wf d -> wf (update_where i f d).
Proof.
  intros F (N & B & L). split; [|split].
  - now rewrite update_where_ids.
  - intros r I. unfold update_where in I. simpl in I.
    apply in_map_iff in I. destruct I as (x & E & I).
    specialize (B x I). simpl.
    destruct (id x =? i); subst r; [rewrite F|]; exact B.
  - exact L.
Qed.

Lemma set_status_wf i s (d : db) (w : hworld) :
  wf d -> wf (fst (set_status i s (d, w))).
Proof.
  intros W. unfold set_status, _now. destruct (utcnow w) as [now w1].
  now apply update_where_wf.
Qed.

Lemma update_report_path_wf i p (d : db) (w : hworld) :
  wf d -> wf (fst (update_report_path i p (d, w))).
Proof.
  intros W. unfold update_report_path, _now. destruct (utcnow w) as [now w1].
  now apply update_where_wf.
Qed.

Lemma set_download_token_wf i t x (d : db) (w : hworld) :
  wf d -> wf (fst (set_download_token i t x (d, w))).
Proof.
  intros W. unfold set_download_token, _now. destruct (utcnow w) as [now w1].
  now apply update_where_wf.
Qed.

Lemma make_download_ready_wf i h (d : db) (w : hworld) :
  wf d -> wf (fst (snd (make_download_ready i h (d, w)))).
Proof.
  intros W. unfold make_download_ready, generate_token.
  destruct (token_urlsafe 24 w) as [t w1]. destruct (utcnow w1) as [n1 w2].
  cbn [snd].
  destruct (set_download_token i t (n1 + hours h) (d, w2)) as [d1 w3] eqn:E.
  apply set_status_wf.
  change d1 with (fst (d1, w3)). rewrite <- E.
  now apply set_download_token_wf.
Qed.

(** X11: the ids of the store stay distinct and are never given twice: the
    empty store is well formed, and creating a request, setting a status, a
    report path or a download token, and making a download ready keep it
    so. *)
Theorem store_keeps_ids_distinct :
  wf empty_db
  /\ forall d w, wf d ->
       (forall a b c e f p s,
          wf (fst (snd (create_request a b c e f p s (d, w)))))
       /\ (forall i s, wf (fst (set_status i s (d, w))))
       /\ (forall i p, wf (fst (update_report_path i p (d, w))))
       /\ (forall i t x, wf (fst (set_download_token i t x (d, w))))
       /\ (forall i h, wf (fst (snd (make_download_ready i h (d, w))))).
Proof.
  split.
  - split; [constructor|]. split; [intros r []|simpl; lia].
  - intros d w W.
    split; [intros; now apply create_request_wf|].
    split; [intros; now apply set_status_wf|].
    split; [intros; now apply update_report_path_wf|].
    split; [intros; now apply set_download_token_wf|].
    intros; now apply make_download_ready_wf.
Qed.

Lemma created_row a b c e f p s (d : db) (w : hworld) :
  wf d ->
  let '(i, st) := create_request a b c e f p s (d, w) in
  get_request i (d, w) = None
  /\ (exists r,
        get_request i st = Some r
        /\ id r = i /\ status r = STATUS_APPROVED
        /\ national_address r = b /\ incident_date r = c
        /\ incident_start r = e /\ incident_end r = f
        /\ street_name r = s /\ report_path r = str_of_path p
        /\ download_token r = None /\ download_expires_at r = None)
  /\ forall j, j <> i -> get_request j st = get_request j (d, w).
Proof.
  intros (N & B & L). unfold create_request, generate_token, _now.
  destruct (token_urlsafe 24 w) as [t w1]. destruct (utcnow w1) as [now w2].
  assert (F : select (last_id d + 1) d = None).
  { apply select_none_fresh. intros r I. specialize (B r I). lia. }
  unfold get_request. cbn [fst]. split; [exact F|]. split.
  - eexists. unfold select in *. cbn [requests]. rewrite find_app_fresh, F.
    cbn [id]. rewrite Z.eqb_refl. split; [reflexivity|]. repeat split.
  - intros j J. unfold select. cbn [requests]. rewrite find_app_fresh.
    destruct (find (fun x => id x =? j) (requests d)); [reflexivity|].
    cbn [id]. replace (last_id d + 1 =? j) with false; [reflexivity|].
    symmetry. apply Z.eqb_neq. lia.
Qed.


(** X13: setting the status of a request changes the status and the time of
    update of that request only; on an id that is not in the store it
    changes no row. *)
Theorem set_status_one_row (i : Z) (s : str) (d : db) (w : hworld) :
  let st := set_status i s (d, w) in
  (forall j, j <> i -> get_request j st = get_request j (d, w))
  /\ (get_request i (d, w) = None -> fst st = d)
  /\ (forall r, get_request i (d, w) = Some r ->
      get_request i st = Some (with_status s (fst (utcnow w)) r)).
Proof.
  unfold set_status, _now, get_request. destruct (utcnow w) as [now w1].
  cbn [fst]. split; [|split].
  - intros j J. rewrite select_update by reflexivity.
    replace (j =? i) with false; [reflexivity|].
    symmetry. now apply Z.eqb_neq.
  - apply update_where_absent.
  - intros r E. rewrite select_update by reflexivity.
    now rewrite Z.eqb_refl, E.
Qed.

Lemma make_download_ready_row (i h : Z) (d : db) (w : hworld) (r : row) :
  select i d = Some r ->
  let '(token, w1) := token_urlsafe 24 w in
  let t := fst (utcnow w1) in
  exists r1 w2,
    make_download_ready i h (d, w) = (token, (r1, w2))
    /\ exists x,
         select i r1 = Some x /\ status x = STATUS_READY
         /\ download_token x = Some token
         /\ download_expires_at x = Some (t + hours h)
         /\ upload_token x = upload_token r.
Proof.
  intros E. unfold make_download_ready, generate_token, set_download_token,
    set_status, _now.
  destruct (token_urlsafe 24 w) as [token w1].
  destruct (utcnow w1) as [n1 w2]. destruct (utcnow w2) as [n2 w3].
  destruct (utcnow w3) as [n3 w4]. cbn [fst].
  eexists _, _. split; [reflexivity|].
  rewrite !select_update by reflexivity. rewrite Z.eqb_refl, E.
  cbn [option_map]. eexists. split; [reflexivity|]. repeat split.
Qed.

(** X14: after [make_download_ready] on a stored request, the token
    returned validates as long as the clock has not passed the expiry
    (the time read plus [hours_valid] hours), is refused as expired once it
    has, and any other token is refused as invalid. *)
Theorem download_token_round_trip (i h : Z) (d : db) (w : hworld) (r : row) :
  get_request i (d, w) = Some r ->
  let expiry := fst (utcnow (snd (token_urlsafe 24 w))) + hours h in
  let '(token, st) := make_download_ready i h (d, w) in
  let now := fst (utcnow (snd st)) in
  (now <= expiry -> fst (validate_download_token i token st) = (true, []))
  /\ (expiry < now ->
      fst (validate_download_token i token st)
      = (false, u "Download link expired."))
  /\ forall other, str_eqb token other = false ->
       fst (validate_download_token i other st) = (false, u "Invalid token.").
Proof.
  unfold get_request. cbn [fst]. intros E.
  pose proof (make_download_ready_row i h d w r E) as M.
  destruct (token_urlsafe 24 w) as [token w1]. cbn [snd].
  destruct M as (d1 & w2 & -> & x & S & St & Tk & Ex & _).
  cbn [snd]. unfold validate_download_token. rewrite S, St, Tk, Ex.
  cbn [negb token_differs]. rewrite !str_eqb_refl. cbn [negb].
  destruct (utcnow w2) as [now w3]. cbn [fst].
  split; [|split].
  - intros L. replace (_ <? now) with false; [reflexivity|].
    symmetry. apply Z.ltb_ge. lia.
  - intros L. replace (_ <? now) with true; [reflexivity|].
    symmetry. apply Z.ltb_lt. lia.
  - intros other O. now rewrite O.
Qed.

(** X15: [validate_download_token] answers yes only for a stored request
    that is ready and whose download token is the one presented; it never
    changes the store. *)
Theorem validation_is_sound (i : Z) (token : str) (d : db) (w : hworld) :
  let '(answer, st) := validate_download_token i token (d, w) in
  fst st = d
  /\ (fst answer = true ->
      exists r, get_request i (d, w) = Some r
                /\ status r = STATUS_READY
                /\ download_token r = Some token).
Proof.
  unfold validate_download_token, get_request. cbn [fst].
  destruct (select i d) as [r|]; [|split; [reflexivity|discriminate]].
  destruct (str_eqb (status r) STATUS_READY) eqn:S; cbn [negb];
    [|split; [reflexivity|discriminate]].
  destruct (download_token r) as [t|] eqn:T; cbn [token_differs];
    [|split; [reflexivity|discriminate]].
  destruct (str_eqb t token) eqn:K; cbn [negb];
    [|split; [reflexivity|discriminate]].
  apply str_eqb_eq in S. apply str_eqb_eq in K. subst t.
  assert (R : exists r0, Some r = Some r0 /\ status r0 = STATUS_READY
                         /\ download_token r0 = Some token)
    by (exists r; auto).
  destruct (download_expires_at r) as [x|]; [|split; auto].
  destruct (utcnow w) as [now w1]. destruct (x <? now); split; auto;
    discriminate.
Qed.

End Store.
End ModelsFacts.

(** * Files: [backend/app/storage.py] *)

Module Storage.
Section Files.
Context {SV : Services} {HT : Host}.

Definition REPORTS_DIR : str := u "reports".
Definition VIDEOS_DIR : str := u "videos".

(** [f"request_{request_id}_{filename}"]. *)
Definition safe_name (request_id : Z) (filename : str) : str :=
  u "request_" ++ str_of_int request_id ++ u "_" ++ filename.

Definition save_report_file (request_id : Z) (filename : str)
    (content : bytes) (w : hworld) : (path + str) * hworld :=
  write_bytes REPORTS_DIR (safe_name request_id filename) content w.

Definition save_video_file (request_id : Z) (filename : str)
    (content : bytes) (w : hworld) : (path + str) * hworld :=
  write_bytes VIDEOS_DIR (safe_name request_id filename) content w.

(** The first file of the listing whose name starts with
    [request_{request_id}_], if there is one. *)
Definition get_video_file (request_id : Z) (w : hworld)
  : option path * hworld :=
  let pattern := u "request_" ++ str_of_int request_id ++ u "_" in
  let '(files, w) := iterdir VIDEOS_DIR w in
  (find (fun file => is_prefix pattern (path_name file)) files, w).

End Files.
End Storage.

(** * The endpoints: [backend/app/main.py] *)

Module Main.
Import Models.

Inductive http (A : Type) : Type :=
| Resp (a : A)
| HTTPException (status_code : Z) (detail : str).
Arguments Resp {A} a.
Arguments HTTPException {A} status_code detail.

(** [verification] holds the result of the verifier, of which the response
    shows the fields of [VerificationInfo]. *)
Record SubmitResponse : Type := {
  request_id : Z;
  submit_upload_token : str;
  admin_link : str;
  submit_status : str;
  verification : option VerificationResult
}.

Record UploadResponse : Type := {
  upload_message : str;
  upload_download_token : str;
  upload_download_expires_at : option Z
}.

Section Endpoints.
Context {RT : PyRuntime} {SV : Services} {HT : Host}.

(** The store, the host and the world of the verifier. *)
Definition app : Type := Models.state * world.

(** The verification step of [create_request]: any exception of the
    verifier is caught and leaves the request pending in the response. *)
Definition verify_and_decide (rid : Z) (saved_path : path)
    (incident_date incident_start incident_end national_address : str)
    (a : app) : (str * option VerificationResult) * app :=
  let '(st, w) := a in
  match verify_report saved_path incident_date incident_start incident_end
          national_address w with
  | (Ok verify_result, w) =>
      if confidence verify_result <? 80 then
        ((STATUS_REJECTED, Some verify_result), (reject_request rid st, w))
      else if 95 <=? confidence verify_result then
        ((STATUS_APPROVED, Some verify_result), (approve_request rid st, w))
      else ((STATUS_PENDING, Some verify_result), (st, w))
  | (Raise _, w) => ((STATUS_PENDING, None), (st, w))
  end.

Definition create_request (national_address incident_date incident_start
    incident_end : str) (street_name : option str) (filename : str)
    (content : bytes) (a : app) : http SubmitResponse * app :=
  let '(st, w) := a in
  let '(rid, st) :=
    Models.create_request (u "user") national_address incident_date
      incident_start incident_end (Path filename) street_name st in
  let '(d, hw) := st in
  match Storage.save_report_file rid filename content hw with
  | (inr message, hw) => (HTTPException 500 message, ((d, hw), w))
  | (inl saved_path, hw) =>
      let st := update_report_path rid saved_path (d, hw) in
      let '((request_status, verification), (st, w)) :=
        verify_and_decide rid saved_path incident_date incident_start
          incident_end national_address (st, w) in
      match get_upload_token rid st with
      | Some upload_token =>
          (Resp {| request_id := rid;
                   submit_upload_token := upload_token;
                   admin_link :=
                     FRONTEND_BASE_URL ++ u "/admin.html?request_id="
                       ++ str_of_int rid ++ u "&token=" ++ upload_token;
                   submit_status := request_status;
                   verification := verification |},
           (st, w))
      | None => (HTTPException 500 (exception_text ValueError), (st, w))
      end
  end.

Definition mock_approve (rid : Z) (a : app) : http str * app :=
  let '(st, w) := a in
  match get_request rid st with
  | None => (HTTPException 404 (u "Request not found."), a)
  | Some req =>
      if negb (str_in (status req) [STATUS_PENDING; STATUS_REJECTED])
      then (Resp (u "Already " ++ status req), a)
      else (Resp (u "Approved"), (approve_request rid st, w))
  end.

(** [not expected or token != expected]. *)
Definition bad_token (expected : option str) (token : str) : bool :=
  match expected with
  | Some e => negb (truthy e) || negb (str_eqb token e)
  | None => true
  end.

Definition upload_video (token : str) (rid : Z) (filename : str)
    (content : bytes) (a : app) : http UploadResponse * app :=
  let '(st, w) := a in
  if bad_token (get_upload_token rid st) token
  then (HTTPException 403 (u "Invalid upload token."), a)
  else
    match get_request rid st with
    | None => (HTTPException 404 (u "Request not found."), a)
    | Some req =>
        if negb (str_eqb (status req) STATUS_APPROVED)
        then (HTTPException 400 (u "Request not approved yet."), a)
        else
          let '(d, hw) := st in
          match Storage.save_video_file rid filename content hw with
          | (inr message, hw) => (HTTPException 500 message, ((d, hw), w))
          | (inl saved, hw) =>
              let '(download_token, st) :=
                make_download_ready rid 24 (d, hw) in
              match get_request rid st with
              | Some req =>
                  (Resp {| upload_message := u "Upload received";
                           upload_download_token := download_token;
                           upload_download_expires_at :=
                             download_expires_at req |},
                   (st, w))
              | None =>
                  (HTTPException 500 (exception_text TypeError), (st, w))
              end
          end
    end.

Definition download_video (rid : Z) (token : str) (a : app)
  : http path * app :=
  let '(st, w) := a in
  let '((valid, reason), st) := validate_download_token rid token st in
  if negb valid then (HTTPException 403 reason, (st, w))
  else
    let '(d, hw) := st in
    match Storage.get_video_file rid hw with
    | (Some file_path, hw) => (Resp file_path, ((d, hw), w))
    | (None, hw) => (HTTPException 404 (u "Video not found."), ((d, hw), w))
    end.

End Endpoints.
End Main.

Module MainFacts.
Import Models ModelsFacts Main.

Section Endpoints.
Context {RT : PyRuntime} {SV : Services} {HT : Host}.

Lemma ready_is_not_approved : str_eqb STATUS_READY STATUS_APPROVED = false.
Proof. reflexivity. Qed.

Lemma rejected_is_not_approved :
  str_eqb STATUS_REJECTED STATUS_APPROVED = false.
Proof. reflexivity. Qed.

(** X16: a video is accepted once: after an upload that was answered with a
    download token, every further upload for the same request with the same
    token is refused with 400, the request being ready and no longer
    approved. *)
Theorem second_upload_refused (token : str) (rid : Z)
    (filename filename' : str) (content content' : bytes)
    (a a1 : app) (r : UploadResponse) :
  upload_video token rid filename content a = (Resp r, a1) ->
  upload_video token rid filename' content' a1
  = (HTTPException 400 (u "Request not approved yet."), a1).
Proof.
  destruct a as [[d hw] w]. unfold upload_video.
  unfold get_upload_token, get_request. cbn [fst].
  destruct (select rid d) as [req|] eqn:S; cbn [bad_token];
    [|discriminate].
  destruct (negb (truthy (upload_token req))
            || negb (str_eqb token (upload_token req))) eqn:B;
    [discriminate|].
  destruct (negb (str_eqb (status req) STATUS_APPROVED)); [discriminate|].
  unfold Storage.save_video_file.
  destruct (write_bytes _ _ content hw) as [[saved|message] hw1];
    [|discriminate].
  pose proof (make_download_ready_row rid 24 d hw1 req S) as M.
  destruct (token_urlsafe 24 hw1) as [tk hw2].
  destruct M as (d1 & hw3 & -> & x & Sx & St & _ & _ & Up).
  cbn [fst]. rewrite Sx. intros [= _ <-].
  cbn [fst]. rewrite Sx. cbn [bad_token]. rewrite Up, B, St.
  rewrite ready_is_not_approved. reflexivity.
Qed.

Lemma decided_status (rid : Z) (p : path) (dt s e addr : str)
    (d : db) (hw : hworld) (w : world) (row0 : row) :
  select rid d = Some row0 -> status row0 = STATUS_APPROVED ->
  let '((request_status, _), ((d', _), _)) :=
    verify_and_decide rid p dt s e addr ((d, hw), w) in
  exists x,
    select rid d' = Some x /\ upload_token x = upload_token row0
    /\ status x = (if str_eqb request_status STATUS_REJECTED
                   then STATUS_REJECTED else STATUS_APPROVED).
Proof.
  intros S A. unfold verify_and_decide.
  destruct (verify_report p dt s e addr w) as [[r|ex] w1].
  - destruct (confidence r <? 80); [|destruct (95 <=? confidence r)].
    + unfold reject_request, set_status, _now.
      destruct (utcnow hw) as [now hw1].
      rewrite select_update by reflexivity. rewrite Z.eqb_refl, S.
      eexists. split; [reflexivity|]. split; reflexivity.
    + unfold approve_request, set_status, _now.
      destruct (utcnow hw) as [now hw1].
      rewrite select_update by reflexivity. rewrite Z.eqb_refl, S.
      eexists. split; [reflexivity|]. split; reflexivity.
    + exists row0. repeat split; auto.
  - exists row0. repeat split; auto.
Qed.

Lemma submitted_row national_address incident_date incident_start
    incident_end street_name filename (content : bytes)
    (d : db) (hw : hworld) (w : world) (resp : SubmitResponse)
    (d' : db) (hw' : hworld) (w' : world) :
  wf d ->
  create_request national_address incident_date incident_start incident_end
    street_name filename content ((d, hw), w) = (Resp resp, ((d', hw'), w')) ->
  exists x,
    select (request_id resp) d' = Some x
    /\ upload_token x = submit_upload_token resp
    /\ status x = (if str_eqb (submit_status resp) STATUS_REJECTED
                   then STATUS_REJECTED else STATUS_APPROVED).
Proof.
  intros W. unfold create_request.
  pose proof (created_row (u "user") national_address incident_date
                incident_start incident_end (Path filename) street_name
                d hw W) as C.
  destruct (Models.create_request _ _ _ _ _ _ _ (d, hw)) as [rid [d1 hw1]].
  destruct C as (_ & (r0 & G & _ & A & _) & _).
  unfold get_request in G. cbn [fst] in G.
  unfold Storage.save_report_file.
  destruct (write_bytes _ _ content hw1) as [[saved|message] hw2];
    [|discriminate].
  unfold update_report_path, _now. destruct (utcnow hw2) as [now hw3].
  set (d2 := update_where rid _ d1).
  assert (S2 : select rid d2
               = Some (with_report_path (str_of_path saved) now r0)).
  { unfold d2. rewrite select_update by reflexivity.
    now rewrite Z.eqb_refl, G. }
  match goal with
  | |- context [@verify_and_decide ?r ?sv ?ht ?a ?b ?c ?e ?f ?g ?h] =>
      set (V := @verify_and_decide r sv ht a b c e f g h)
  end.
  assert (D : let '((request_status, _), ((d', _), _)) := V in
              exists x,
                select rid d' = Some x
                /\ upload_token x
                   = upload_token
                       (with_report_path (str_of_path saved) now r0)
                /\ status x = (if str_eqb request_status STATUS_REJECTED
                               then STATUS_REJECTED else STATUS_APPROVED))
    by exact (decided_status rid saved incident_date incident_start
                incident_end national_address d2 hw3 w _ S2 A).
  clearbody V.
  destruct V as [[request_status verification] [[d3 hw4] w4]].
  destruct D as (x & Sx & Ux & Stx).
  unfold get_upload_token. cbn [fst]. rewrite Sx.
  intros [= <- <- <- <-]. cbn. exists x. auto.
Qed.

(** X17: after a submission that was answered, the store holds the request
    as rejected when the answer says rejected and as approved otherwise:
    an answer "pending approval" (a confidence from 80 to 94, or a
    verification that raised) leaves the request approved in the store. *)
Theorem stored_status_after_submission national_address incident_date
    incident_start incident_end street_name filename (content : bytes)
    (st : Models.state) (w : world) (resp : SubmitResponse)
    (st' : Models.state) (w' : world) :
  wf (fst st) ->
  create_request national_address incident_date incident_start incident_end
    street_name filename content (st, w) = (Resp resp, (st', w')) ->
  exists x,
    get_request (request_id resp) st' = Some x
    /\ (submit_status resp = STATUS_REJECTED -> status x = STATUS_REJECTED)
    /\ (submit_status resp <> STATUS_REJECTED -> status x = STATUS_APPROVED)
    /\ (submit_status resp = STATUS_PENDING -> status x = STATUS_APPROVED).
Proof.
  destruct st as [d hw]. destruct st' as [d' hw']. cbn [fst]. intros W E.
  destruct (submitted_row _ _ _ _ _ _ _ _ _ _ _ _ _ _ W E) as (x & S & _ & St).
  exists x. split; [exact S|].
  destruct (str_eqb (submit_status resp) STATUS_REJECTED) eqn:B.
  - apply str_eqb_eq in B. repeat split; auto; intros H; try congruence.
    rewrite H in B. discriminate.
  - assert (N : submit_status resp <> STATUS_REJECTED).
    { intros H. rewrite H in B. discriminate. }
    repeat split; auto. intros H. now elim N.
Qed.

(** X18: the upload endpoint follows the store, not the answer: with the
    upload token of the answer, an upload is refused with 400 after an
    answer "rejected", and goes through to the writing of the file after
    any other answer, "pending approval" included. *)
Theorem upload_follows_stored_status national_address incident_date
    incident_start incident_end street_name filename (content : bytes)
    (st : Models.state) (w : world) (resp : SubmitResponse) (a' : app)
    (video_name : str) (video : bytes) :
  wf (fst st) ->
  create_request national_address incident_date incident_start incident_end
    street_name filename content (st, w) = (Resp resp, a') ->
  truthy (submit_upload_token resp) = true ->
  (submit_status resp = STATUS_REJECTED ->
   upload_video (submit_upload_token resp) (request_id resp) video_name video
     a'
   = (HTTPException 400 (u "Request not approved yet."), a'))
  /\ (submit_status resp <> STATUS_REJECTED ->
      match fst (upload_video (submit_upload_token resp) (request_id resp)
                   video_name video a') with
      | Resp _ => True
      | HTTPException code _ => code = 500
      end).
Proof.
  destruct st as [d hw]. destruct a' as [[d' hw'] w']. cbn [fst].
  intros W E T.
  destruct (submitted_row _ _ _ _ _ _ _ _ _ _ _ _ _ _ W E) as (x & S & U & St).
  unfold upload_video, get_upload_token, get_request. cbn [fst].
  rewrite S. cbn [bad_token]. rewrite U, T, str_eqb_refl. cbn [negb orb].
  split.
  - intros R. rewrite R, str_eqb_refl in St. rewrite St.
    rewrite rejected_is_not_approved. reflexivity.
  - intros N.
    destruct (str_eqb (submit_status resp) STATUS_REJECTED) eqn:B;
      [apply str_eqb_eq in B; now elim N|].
    rewrite St, str_eqb_refl. cbn [negb].
    unfold Storage.save_video_file.
    destruct (write_bytes _ _ video hw') as [[saved|message] hw1];
      [|reflexivity].
    pose proof (make_download_ready_row (request_id resp) 24 d' hw1 x S) as M.
    destruct (token_urlsafe 24 hw1) as [tk hw2].
    destruct M as (d1 & hw3 & -> & y & Sy & _). cbn [fst]. rewrite Sy.
    exact I.
Qed.

(** X19: the download link of an answered upload works until it expires:
    the answer carries an expiry, and with the token of the answer the
    download is not refused (403) while the clock is not past the expiry,
    and is refused as expired once it is. *)
Theorem download_after_upload (token : str) (rid : Z) (filename : str)
    (content : bytes) (a a1 : app) (r : UploadResponse) :
  upload_video token rid filename content a = (Resp r, a1) ->
  exists expiry,
    upload_download_expires_at r = Some expiry
    /\ let now := fst (utcnow (snd (fst a1))) in
       (now <= expiry ->
        match fst (download_video rid (upload_download_token r) a1) with
        | Resp _ => True
        | HTTPException code _ => code = 404
        end)
       /\ (expiry < now ->
           fst (download_video rid (upload_download_token r) a1)
           = HTTPException 403 (u "Download link expired.")).
Proof.
  destruct a as [[d hw] w]. unfold upload_video.
  unfold get_upload_token, get_request. cbn [fst].
  destruct (select rid d) as [req|] eqn:S; cbn [bad_token];
    [|discriminate].
  destruct (negb (truthy (upload_token req))
            || negb (str_eqb token (upload_token req))); [discriminate|].
  destruct (negb (str_eqb (status req) STATUS_APPROVED)); [discriminate|].
  unfold Storage.save_video_file.
  destruct (write_bytes _ _ content hw) as [[saved|message] hw1];
    [|discriminate].
  pose proof (make_download_ready_row rid 24 d hw1 req S) as M.
  destruct (token_urlsafe 24 hw1) as [tk hw2].
  destruct M as (d1 & hw3 & -> & x & Sx & St & Tk & Ex & _).
  cbn [fst]. rewrite Sx. intros [= <- <-].
  cbn [upload_download_expires_at upload_download_token fst snd].
  eexists. split; [exact Ex|].
  unfold download_video, validate_download_token. rewrite Sx, St, Tk, Ex.
  cbn [negb token_differs]. rewrite !str_eqb_refl. cbn [negb].
  destruct (utcnow hw3) as [now hw4]. cbn [fst]. split.
  - intros L. replace (_ <? now) with false
      by (symmetry; apply Z.ltb_ge; lia).
    cbn [negb]. unfold Storage.get_video_file.
    destruct (iterdir Storage.VIDEOS_DIR hw4) as [files hw5].
    destruct (find _ files); [exact I|reflexivity].
  - intros L. replace (_ <? now) with true
      by (symmetry; apply Z.ltb_lt; lia).
    reflexivity.
Qed.

(** X20: the mock approval acts on pending and rejected requests only: a
    rejected request becomes approved, and a request that is approved or
    ready is left as it is, store and world. *)
Theorem mock_approve_effect (rid : Z) (a : app) (req : row) :
  get_request rid (fst a) = Some req ->
  (status req = STATUS_REJECTED \/ status req = STATUS_PENDING ->
   exists x,
     get_request rid (fst (snd (mock_approve rid a))) = Some x
     /\ status x = STATUS_APPROVED
     /\ fst (mock_approve rid a) = Resp (u "Approved"))
  /\ (status req = STATUS_APPROVED \/ status req = STATUS_READY ->
      mock_approve rid a = (Resp (u "Already " ++ status req), a)).
Proof.
  destruct a as [[d hw] w]. unfold get_request. cbn [fst]. intros S.
  unfold mock_approve, get_request. cbn [fst]. rewrite S. split.
  - intros R.
    assert (B : str_in (status req) [STATUS_PENDING; STATUS_REJECTED] = true)
      by (destruct R as [-> | ->]; reflexivity).
    rewrite B. cbn [negb fst snd].
    unfold approve_request, set_status, _now.
    destruct (utcnow hw) as [now hw1]. cbn [fst].
    rewrite select_update by reflexivity. rewrite Z.eqb_refl, S.
    eexists. split; [reflexivity|]. split; reflexivity.
  - intros R.
    assert (B : str_in (status req) [STATUS_PENDING; STATUS_REJECTED] = false)
      by (destruct R as [-> | ->]; reflexivity).
    rewrite B. reflexivity.
Qed.

End Endpoints.
End MainFacts.

(** A host for the world without network: the clock counts its readings,
    the tokens are numbered, and a file written is the document whose one
    page is the content. *)
#[export] Instance offline_host : @Host offline := {|
  hworld := Z;
  bytes := str;
  utcnow w := (w, w + 1);
  token_urlsafe _ w := (u "token" ++ str_of_int w, w + 1);
  Path name := [name];
  str_of_path p := concat p;
  path_name p := concat p;
  write_bytes _ _ content w := (inl [content], w);
  iterdir _ w := ([], w);
  FRONTEND_BASE_URL := u "http://localhost:3000";
  exception_text _ := []
|}.

Lemma approval_needs_all_checks_witness :
  exists r,
    @verify_report cpython311 offline [u "hello"] (u "2025-09-02")
      (u "17:00") (u "18:00") (u "RRRD2929") tt = (Ok r, tt)
    /\ decide (confidence r) = STATUS_REJECTED.
Proof.
  pose proof (@approval_needs_all_checks cpython311 offline [u "hello"]
                (u "2025-09-02") (u "17:00") (u "18:00") (u "RRRD2929") tt)
    as H.
  destruct (@verify_report cpython311 offline [u "hello"] (u "2025-09-02")
              (u "17:00") (u "18:00") (u "RRRD2929") tt) as [[r|e] []] eqn:E;
    [|vm_compute in E; discriminate].
  exists r. split; [reflexivity|]. destruct H as [_ H]. apply H. left.
  vm_compute in E. now injection E as <-.
Defined.

Import Models ModelsFacts Main MainFacts.

Definition fresh : @Main.app offline offline_host := ((empty_db, 0), tt).

Definition submit (content : str) :=
  @Main.create_request cpython311 offline offline_host (u "RRRD2929")
    (u "2025-09-02") (u "17:00") (u "18:00") None (u "report.pdf") content
    fresh.

Lemma wf_empty : @wf empty_db.
Proof. split; [constructor|]. split; [intros r []|simpl; lia]. Qed.

Lemma store_keeps_ids_distinct_witness :
  @wf (fst (snd (@Models.create_request offline offline_host (u "user")
                   (u "RRRD2929") (u "2025-09-02") (u "17:00") (u "18:00")
                   [u "report.pdf"] None (empty_db, 0)))).
Proof.
  destruct (@store_keeps_ids_distinct offline offline_host) as [E K].
  destruct (K empty_db 0 E) as [C _]. apply C.
Defined.


Definition one_request : @Models.state offline offline_host :=
  snd (@Models.create_request offline offline_host (u "user")
         (u "RRRD2929") (u "2025-09-02") (u "17:00") (u "18:00")
         [u "report.pdf"] None (empty_db, 0)).

Lemma set_status_one_row_witness :
  option_map status
    (@get_request offline offline_host 1
       (set_status 1 STATUS_REJECTED one_request))
  = Some STATUS_REJECTED
  /\ fst (@set_status offline offline_host 7 STATUS_REJECTED one_request)
     = fst one_request.
Proof.
  destruct (@set_status_one_row offline offline_host 1 STATUS_REJECTED
              (fst one_request) (snd one_request)) as (_ & _ & A).
  destruct (@set_status_one_row offline offline_host 7 STATUS_REJECTED
              (fst one_request) (snd one_request)) as (_ & B & _).
  split.
  - change (fst one_request, snd one_request) with one_request in A.
    destruct (@get_request offline offline_host 1 one_request) as [r|] eqn:G;
      [|vm_compute in G; discriminate].
    rewrite (A r eq_refl). reflexivity.
  - apply B. reflexivity.
Defined.

Lemma download_token_round_trip_witness :
  let '(token, st) :=
    @make_download_ready offline offline_host 1 24 one_request in
  fst (validate_download_token 1 token st) = (true, []).
Proof.
  destruct (@get_request offline offline_host 1 one_request) as [r|] eqn:G;
    [|vm_compute in G; discriminate].
  pose proof (@download_token_round_trip offline offline_host 1 24
                (fst one_request) (snd one_request) r G) as H.
  change (fst one_request, snd one_request) with one_request in H.
  destruct (@make_download_ready offline offline_host 1 24 one_request)
    as [token st] eqn:M.
  destruct H as [H _]. apply H.
  vm_compute in M. injection M as <- <-. vm_compute. discriminate.
Defined.

Lemma validation_is_sound_witness :
  let '(token, st) :=
    @make_download_ready offline offline_host 1 24 one_request in
  exists r, get_request 1 st = Some r /\ status r = STATUS_READY
            /\ download_token r = Some token.
Proof.
  destruct (@make_download_ready offline offline_host 1 24 one_request)
    as [token [d w]] eqn:M.
  pose proof (@validation_is_sound offline offline_host 1 token d w) as H.
  destruct (validate_download_token 1 token (d, w)) as [answer st] eqn:V.
  destruct H as [_ H]. apply H.
  vm_compute in M. injection M as <- <- <-. vm_compute in V.
  injection V as <- _. reflexivity.
Defined.

Lemma stored_status_after_submission_witness :
  exists resp a x,
    submit (u "hello") = (Resp resp, a)
    /\ submit_status resp = STATUS_REJECTED
    /\ get_request (request_id resp) (fst a) = Some x
    /\ status x = STATUS_REJECTED.
Proof.
  destruct (submit (u "hello")) as [[resp|code detail] [st w]] eqn:E;
    [|vm_compute in E; discriminate].
  destruct (@stored_status_after_submission cpython311 offline offline_host
              _ _ _ _ _ _ _ (empty_db, 0) tt resp st w wf_empty E)
    as (x & G & R & _).
  assert (S : submit_status resp = STATUS_REJECTED)
    by (vm_compute in E; injection E as <- _ _; reflexivity).
  exists resp, (st, w), x. repeat split; auto.
Defined.

Lemma upload_follows_stored_status_witness :
  exists resp a,
    submit (u "hello") = (Resp resp, a)
    /\ @upload_video offline offline_host (submit_upload_token resp)
         (request_id resp) (u "clip.mp4") (u "video") a
       = (HTTPException 400 (u "Request not approved yet."), a).
Proof.
  destruct (submit (u "hello")) as [[resp|code detail] a] eqn:E;
    [|vm_compute in E; discriminate].
  assert (S : submit_status resp = STATUS_REJECTED
              /\ truthy (submit_upload_token resp) = true)
    by (vm_compute in E; injection E as <- _; split; reflexivity).
  destruct S as [S T].
  destruct (@upload_follows_stored_status cpython311 offline offline_host
              _ _ _ _ _ _ _ (empty_db, 0) tt resp a (u "clip.mp4") (u "video")
              wf_empty E T) as [R _].
  exists resp, a. split; [reflexivity|]. exact (R S).
Defined.

Lemma second_upload_refused_witness :
  exists resp a r a1,
    submit [] = (Resp resp, a)
    /\ @upload_video offline offline_host (submit_upload_token resp)
         (request_id resp) (u "clip.mp4") (u "video") a = (Resp r, a1)
    /\ @upload_video offline offline_host (submit_upload_token resp)
         (request_id resp) (u "again.mp4") (u "video") a1
       = (HTTPException 400 (u "Request not approved yet."), a1).
Proof.
  destruct (submit []) as [[resp|code detail] a] eqn:E;
    [|vm_compute in E; discriminate].
  destruct (@upload_video offline offline_host (submit_upload_token resp)
              (request_id resp) (u "clip.mp4") (u "video") a)
    as [[r|code detail] a1] eqn:U.
  - exists resp, a, r, a1. split; [reflexivity|]. split; [exact U|].
    exact (@second_upload_refused offline offline_host _ _ _
             (u "again.mp4") _ (u "video") a a1 r U).
  - exfalso. vm_compute in E. injection E as <- <-. vm_compute in U.
    discriminate.
Defined.

Lemma download_after_upload_witness :
  exists resp a r a1,
    submit [] = (Resp resp, a)
    /\ @upload_video offline offline_host (submit_upload_token resp)
         (request_id resp) (u "clip.mp4") (u "video") a = (Resp r, a1)
    /\ fst (@download_video offline offline_host (request_id resp)
              (upload_download_token r) a1)
       = HTTPException 404 (u "Video not found.").
Proof.
  destruct (submit []) as [[resp|code detail] a] eqn:E;
    [|vm_compute in E; discriminate].
  destruct (@upload_video offline offline_host (submit_upload_token resp)
              (request_id resp) (u "clip.mp4") (u "video") a)
    as [[r|code detail] a1] eqn:U.
  - exists resp, a, r, a1. split; [reflexivity|]. split; [exact U|].
    destruct (@download_after_upload offline offline_host _ _ _ _ a a1 r U)
      as (expiry & X & L & _).
    assert (N : fst (utcnow (snd (fst a1))) <= expiry).
    { vm_compute in E. injection E as <- <-. vm_compute in U.
      injection U as <- <-. vm_compute in X. injection X as <-.
      vm_compute. discriminate. }
    specialize (L N).
    vm_compute in E. injection E as <- <-. vm_compute in U.
    injection U as <- <-. reflexivity.
  - exfalso. vm_compute in E. injection E as <- <-. vm_compute in U.
    discriminate.
Defined.

Lemma mock_approve_effect_witness :
  exists resp a x,
    submit (u "hello") = (Resp resp, a)
    /\ get_request (request_id resp)
         (fst (snd (@mock_approve offline offline_host (request_id resp) a)))
       = Some x
    /\ status x = STATUS_APPROVED.
Proof.
  destruct (submit (u "hello")) as [[resp|code detail] a] eqn:E;
    [|vm_compute in E; discriminate].
  destruct (get_request (request_id resp) (fst a)) as [req|] eqn:G;
    [|vm_compute in E; injection E as <- <-; vm_compute in G; discriminate].
  destruct (@mock_approve_effect offline offline_host (request_id resp) a req G)
    as [A _].
  destruct A as (x & Gx & Sx & _).
  { left. vm_compute in E. injection E as <- <-. vm_compute in G.
    injection G as <-. reflexivity. }
  exists resp, a, x. split; [reflexivity|]. split; assumption.
Defined.
